(** * FastAPI_chat: the real-time messaging core, embedded in Rocq

    The development follows the Python sources:
    - [app/crud.py]      create_message, mark_message_as_read (with the
                         table declarations of [app/models.py]);
    - [app/websocket.py] ConnectionManager and websocket_endpoint;
    - [app/main.py]      websocket_route.

    Conventions of the embedding.
    - A Python [int] is a [Z]; a Python [str] is a [string], read as the
      UTF-8 encoding of the text (which is what a string literal of this
      file denotes), so that [str.encode()] is the passage to the list of
      bytes. A [str] that has no UTF-8 encoding (one holding a lone
      surrogate) is not represented.
    - A Python object compared by identity (a WebSocket) is a [nat] handle.
    - A [dict] keyed by integers is a [gmap Z _]; a Python [list] is a
      [list].
    - Code that awaits, raises and mutates shared objects is written in a
      state-and-exception monad [M]. A coroutine runs to its end before
      another one runs: the interleavings that [await] allows are not
      part of the embedding. *)

From Stdlib Require Import ZArith Lia Strings.String Strings.Ascii Strings.Byte.
From Stdlib Require Import Numbers.DecimalString Numbers.DecimalZ Numbers.DecimalPos.
From Stdlib Require Import Floats.SpecFloat.
From stdpp Require Import gmap strings list.

Local Open Scope Z_scope.

(* ===================================================================== *)
(** * hashlib.sha256 (FIPS 180-4), on 32-bit words held in [Z] *)
(* ===================================================================== *)

Module SHA256.

Definition w32 (x : Z) : Z := Z.land x 0xffffffff.
Definition add32 (x y : Z) : Z := w32 (x + y).
Definition rotr (n x : Z) : Z :=
  Z.lor (Z.shiftr x n) (w32 (Z.shiftl x (32 - n))).
Definition shr (n x : Z) : Z := Z.shiftr x n.
Definition not32 (x : Z) : Z := Z.lxor x 0xffffffff.

Definition Ch (x y z : Z) : Z := Z.lxor (Z.land x y) (Z.land (not32 x) z).
Definition Maj (x y z : Z) : Z :=
  Z.lxor (Z.lxor (Z.land x y) (Z.land x z)) (Z.land y z).
Definition Sigma0 (x : Z) : Z := Z.lxor (Z.lxor (rotr 2 x) (rotr 13 x)) (rotr 22 x).
Definition Sigma1 (x : Z) : Z := Z.lxor (Z.lxor (rotr 6 x) (rotr 11 x)) (rotr 25 x).
Definition sigma0 (x : Z) : Z := Z.lxor (Z.lxor (rotr 7 x) (rotr 18 x)) (shr 3 x).
Definition sigma1 (x : Z) : Z := Z.lxor (Z.lxor (rotr 17 x) (rotr 19 x)) (shr 10 x).

(** The round constants are the first 32 bits of the fractional parts of
    the cube roots of the first 64 primes, and the initial hash value
    those of the square roots of the first 8. *)
Definition is_prime (n : Z) : bool :=
  forallb (fun d => negb (n mod d =? 0)) (seqZ 2 (n - 2)).

Definition primes : list Z := List.filter is_prime (seqZ 2 310).

(** The integer cube root of [x], below [2 ^ n], one bit at a time. *)
Fixpoint cube_root (n : nat) (r x : Z) : Z :=
  match n with
  | O => r
  | S n' =>
      let r' := Z.lor r (Z.shiftl 1 (Z.of_nat n')) in
      cube_root n' (if r' * r' * r' <=? x then r' else r) x
  end.

Definition K : list Z :=
  Eval vm_compute in map (fun p => w32 (cube_root 36 0 (Z.shiftl p 96))) primes.

Definition H0 : list Z :=
  Eval vm_compute in map (fun p => w32 (Z.sqrt (Z.shiftl p 64))) (firstn 8 primes).

Definition byteZ (b : byte) : Z := Z.of_N (Byte.to_N b).

(** Big-endian encoding of [x] on [n] bytes, as numbers below 256. *)
Fixpoint be_bytes (n : nat) (x : Z) : list Z :=
  match n with
  | O => []
  | S n' => Z.land (Z.shiftr x (8 * Z.of_nat n')) 0xff :: be_bytes n' x
  end.

(** The padded message: the bytes, 0x80, zeros up to 56 modulo 64, and
    the bit length on eight bytes. *)
Definition pad (msg : list byte) : list Z :=
  let len := Z.of_nat (length msg) in
  let zeros := Z.to_nat ((55 - len) mod 64) in
  map byteZ msg ++ 0x80 :: repeat 0 zeros ++ be_bytes 8 (8 * len).

Fixpoint words (bs : list Z) : list Z :=
  match bs with
  | b0 :: b1 :: b2 :: b3 :: rest =>
      Z.lor (Z.shiftl b0 24) (Z.lor (Z.shiftl b1 16) (Z.lor (Z.shiftl b2 8) b3))
        :: words rest
  | _ => []
  end.

(** The message schedule is grown most recent word first: [ws] holds
    W(t-1), W(t-2), ... *)
Fixpoint schedule (n : nat) (ws : list Z) : list Z :=
  match n with
  | O => ws
  | S n' =>
      let w := add32 (add32 (sigma1 (nth 1 ws 0)) (nth 6 ws 0))
                     (add32 (sigma0 (nth 14 ws 0)) (nth 15 ws 0)) in
      schedule n' (w :: ws)
  end.

Definition round (st : list Z) (kw : Z * Z) : list Z :=
  match st with
  | [a; b; c; d; e; f; g; h] =>
      let t1 := add32 (add32 (add32 h (Sigma1 e)) (add32 (Ch e f g) (fst kw))) (snd kw) in
      let t2 := add32 (Sigma0 a) (Maj a b c) in
      [add32 t1 t2; a; b; c; add32 d t1; e; f; g]
  | _ => st
  end.

Fixpoint zip_add (xs ys : list Z) : list Z :=
  match xs, ys with
  | x :: xs', y :: ys' => add32 x y :: zip_add xs' ys'
  | _, _ => []
  end.

Definition compress (h : list Z) (block : list Z) : list Z :=
  let w := rev (schedule 48 (rev block)) in
  zip_add h (fold_left round (combine K w) h).

Fixpoint blocks (n : nat) (ws : list Z) (h : list Z) : list Z :=
  match n with
  | O => h
  | S n' => blocks n' (skipn 16 ws) (compress h (firstn 16 ws))
  end.

Definition digest_words (msg : list byte) : list Z :=
  let ws := words (pad msg) in
  blocks (Nat.div (length ws) 16) ws H0.

Definition hex_digit (x : Z) : ascii :=
  if x <? 10 then ascii_of_N (Z.to_N (48 + x)) else ascii_of_N (Z.to_N (87 + x)).

Fixpoint hex_word (n : nat) (x : Z) : string :=
  match n with
  | O => EmptyString
  | S n' => String (hex_digit (Z.land (Z.shiftr x (4 * Z.of_nat n')) 0xf)) (hex_word n' x)
  end.

(** [hashlib.sha256(msg).hexdigest()] *)
Definition hexdigest (msg : list byte) : string :=
  fold_right (fun w s => String.append (hex_word 8 w) s) EmptyString (digest_words msg).

End SHA256.


(* ===================================================================== *)
(** * Python values *)
(* ===================================================================== *)

Set Warnings "-register-all".

(** What [json.loads] returns. A [dict] is given by its items, each key
    listed once; a float is given by its IEEE 754 value. *)
Inductive json : Type :=
| JNull
| JBool (b : bool)
| JInt (z : Z)
| JFloat (f : spec_float)
| JStr (s : string)
| JArr (items : list json)
| JObj (fields : list (string * json)).

(** [bool(v)]: the truth value that [not v] and [if v] test. *)
Definition truthy (v : json) : bool :=
  match v with
  | JNull => false
  | JBool b => b
  | JInt z => negb (z =? 0)
  | JFloat (S754_zero _) => false
  | JFloat _ => true
  | JStr s => negb (String.eqb s EmptyString)
  | JArr items => match items with [] => false | _ => true end
  | JObj fields => match fields with [] => false | _ => true end
  end.

(** [d.get(key)] on a dict given by its items: [None] when the key is
    absent. *)
Fixpoint dict_get (key : string) (fields : list (string * json)) : json :=
  match fields with
  | [] => JNull
  | (k, v) :: rest => if String.eqb k key then v else dict_get key rest
  end.

(** [v == "literal"]: a value of another type is never equal to a str. *)
Definition eq_str (v : json) (lit : string) : bool :=
  match v with
  | JStr s => String.eqb s lit
  | _ => false
  end.

(** [str(n)] for an int, as an f-string renders it. *)
Definition str_int (n : Z) : string := NilZero.string_of_int (Z.to_int n).


(** Exceptions, by class. [HTTPException] is the class of [http.client],
    which is the one [crud.py] and [websocket.py] import;
    [FastAPIHTTPException] is the class of the same name that [main.py]
    imports from fastapi. Every class here derives from [Exception]. *)
Inductive exn : Type :=
| TypeError (msg : string)
| ValueError (msg : string)
| AttributeError (msg : string)
| JSONDecodeError
| ValidationError
| IntegrityError
| DBAPIError
| JWTError
| HTTPException
| FastAPIHTTPException (status_code : Z) (detail : string)
| WebSocketDisconnect
| RuntimeError.

Inductive result (A : Type) : Type :=
| Ok (a : A)
| Raise (e : exn).
Arguments Ok {A} a.
Arguments Raise {A} e.

(* ===================================================================== *)
(** * app/models.py: the tables *)
(* ===================================================================== *)

(** [chats] and [groups] are keyed by their primary key [id]; a row
    holds the other columns. *)
Module Chat.
Record t : Type := mk {
  name : option string;
  type : option string;
  user1_id : option Z;
  user2_id : option Z }.
End Chat.

Module Group.
Record t : Type := mk {
  name : option string;
  creator_id : option Z;
  chat_id : option Z }.
End Group.

(** A [timestamp] is a [datetime]; the core only ever renders it with
    [isoformat()], and the embedding holds it as that text. *)
Module Message.
Record t : Type := mk {
  id : Z;
  chat_id : Z;
  sender_id : Z;
  text : string;
  timestamp : string;
  is_read : bool;
  message_hash : string }.
End Message.

(** The database: tables are keyed by primary key, except [messages],
    kept in insertion order; [message_seq] is the last value drawn from
    the sequence behind [messages.id]. *)
Record database : Type := mk_database {
  users : gset Z;
  chats : gmap Z Chat.t;
  groups : gmap Z Group.t;
  messages : list Message.t;
  message_seq : Z }.

(** app/schemas.py *)
Record MessageCreate : Type := mk_MessageCreate {
  mc_chat_id : Z;
  mc_sender_id : Z;
  mc_text : string;
  mc_is_read : bool }.

(* ===================================================================== *)
(** * The world the coroutines run in *)
(* ===================================================================== *)

Definition conn : Type := nat.

(** What crosses a connection, server side. [Sent] carries the object
    handed to [json.dumps]. *)
Inductive wire_event : Type :=
| Accepted (ws : conn)
| Sent (ws : conn) (payload : json)
| Closed (ws : conn) (code : Z) (reason : string).

Record world : Type := mk_world {
  active_connections : gmap Z (list conn);   (* manager.active_connections *)
  db : database;
  gone : gset conn;            (* peers on which accept and send_text raise *)
  utcnow : string;             (* datetime.utcnow(), see [Message.timestamp] *)
  wire : list wire_event;      (* all that was sent so far, oldest first *)
  log : list exn }.            (* what logger.error was given *)

Definition with_connections (f : gmap Z (list conn) -> gmap Z (list conn)) (w : world) : world :=
  mk_world (f (active_connections w)) (db w) (gone w) (utcnow w) (wire w) (log w).
Definition with_db (f : database -> database) (w : world) : world :=
  mk_world (active_connections w) (f (db w)) (gone w) (utcnow w) (wire w) (log w).
Definition with_wire (f : list wire_event -> list wire_event) (w : world) : world :=
  mk_world (active_connections w) (db w) (gone w) (utcnow w) (f (wire w)) (log w).
Definition with_log (f : list exn -> list exn) (w : world) : world :=
  mk_world (active_connections w) (db w) (gone w) (utcnow w) (wire w) (f (log w)).

(** A coroutine: it runs on the world and returns or raises. *)
Definition M (A : Type) : Type := world -> result A * world.

Definition ret {A} (a : A) : M A := fun w => (Ok a, w).
Definition raise {A} (e : exn) : M A := fun w => (Raise e, w).
Definition bind {A B} (m : M A) (k : A -> M B) : M B :=
  fun w => match m w with
           | (Ok a, w') => k a w'
           | (Raise e, w') => (Raise e, w')
           end.
(** [try: m  except ...: h e]; a handler re-raises what its clauses do
    not match. *)
Definition try_except {A} (m : M A) (h : exn -> M A) : M A :=
  fun w => match m w with
           | (Ok a, w') => (Ok a, w')
           | (Raise e, w') => h e w'
           end.
Definition get_world : M world := fun w => (Ok w, w).
Definition modify (f : world -> world) : M unit := fun w => (Ok tt, f w).

Notation "'let!' x ':=' m 'in' k" := (bind m (fun x => k))
  (at level 10, x name, m at level 100, k at level 200).
Notation "m1 ';;;' m2" := (bind m1 (fun _ => m2))
  (at level 100, m2 at level 200, right associativity).

(** [logger.error(f"...{e}")] *)
Definition logger_error (e : exn) : M unit := modify (with_log (fun l => l ++ [e])).

(** The handshake state of a connection is read off the wire: the
    handshake is answered once an [Accepted] or a [Closed] for the
    connection has been sent. *)
Definition answers (ws : conn) (ev : wire_event) : bool :=
  match ev with
  | Accepted x | Closed x _ _ => Nat.eqb x ws
  | Sent _ _ => false
  end.

Definition answered (ws : conn) (tr : list wire_event) : bool :=
  existsb (answers ws) tr.

(** [await websocket.accept()], [await websocket.send_text(json.dumps(payload))]
    and [await websocket.close(code, reason)]. A handshake is answered
    once: on a connection already accepted, or closed, [accept] raises
    RuntimeError and sends nothing, whether the peer is there or not. *)
Definition accept (ws : conn) : M unit :=
  fun w => if answered ws (wire w) then (Raise RuntimeError, w)
           else if decide (ws ∈ gone w) then (Raise WebSocketDisconnect, w)
           else (Ok tt, with_wire (fun l => l ++ [Accepted ws]) w).
Definition send_text (ws : conn) (payload : json) : M unit :=
  fun w => if decide (ws ∈ gone w) then (Raise WebSocketDisconnect, w)
           else (Ok tt, with_wire (fun l => l ++ [Sent ws payload]) w).
Definition close (ws : conn) (code : Z) (reason : string) : M unit :=
  modify (with_wire (fun l => l ++ [Closed ws code reason])).

(* ===================================================================== *)
(** * Libraries the core calls *)
(* ===================================================================== *)

(** What pydantic, the database driver, [int()] and [jose.jwt] do with
    the values handed to them is theirs to decide; the core relies on
    the following.
    - [pydantic_int], [pydantic_str]: validation of an [int] and a [str]
      field of [MessageCreate]; [None] is a ValidationError. An int is
      an int, a str is a str, and [None] is no int.
    - [sql_int]: binding a value against an [Integer] column in a query;
      [None] is the driver's refusal. A 32-bit int binds as itself, and
      nothing binds as a value outside 32 bits.
    - [int_of_str]: [int(s)]; [None] is a ValueError. It reads back what
      [str] prints.
    - [jwt_decode]: [jwt.decode(token, SECRET_KEY, algorithms=[ALGORITHM])],
      with the constants of [app/security.py]; [None] is a JWTError,
      otherwise the payload, a dict. *)
Class Libraries : Type := {
  pydantic_int : json -> option Z;
  pydantic_str : json -> option string;
  sql_int : json -> option Z;
  int_of_str : string -> option Z;
  jwt_decode : string -> option (list (string * json));
  pydantic_int_exact : forall z, pydantic_int (JInt z) = Some z;
  pydantic_int_null : pydantic_int JNull = None;
  pydantic_str_exact : forall s, pydantic_str (JStr s) = Some s;
  sql_int_exact : forall z, - 2 ^ 31 <= z < 2 ^ 31 -> sql_int (JInt z) = Some z;
  sql_int_int32 : forall v i, sql_int v = Some i -> - 2 ^ 31 <= i < 2 ^ 31;
  int_of_str_exact : forall z, int_of_str (str_int z) = Some z }.

(* ===================================================================== *)
(** * app/crud.py *)
(* ===================================================================== *)

(** [f"{chat_id}_{sender_id}_{text}".encode()] *)
Definition prehash (chat_id sender_id : Z) (text : string) : list byte :=
  list_byte_of_string
    (String.append (str_int chat_id)
       (String.append "_" (String.append (str_int sender_id) (String.append "_" text)))).

(** [hashlib.sha256(...).hexdigest()] of it. *)
Definition fingerprint (chat_id sender_id : Z) (text : string) : string :=
  SHA256.hexdigest (prehash chat_id sender_id text).

(** [select(models.Message).filter(models.Message.message_hash == h)]
    then [.scalars().first()]. *)
Definition first_by_hash (h : string) (ms : list Message.t) : option Message.t :=
  List.find (fun m => String.eqb (Message.message_hash m) h) ms.

(** [select(models.Message).filter(models.Message.id == i)] then
    [.scalars().first()]. *)
Definition first_by_id (i : Z) (ms : list Message.t) : option Message.t :=
  List.find (fun m => Message.id m =? i) ms.

(** [HTTPException(status_code=..., detail=...)] with the class of
    [http.client]: it is a bare subclass of [Exception], whose
    constructor takes no keyword argument, so the call itself raises
    TypeError and no HTTPException is ever built. *)
Definition new_HTTPException {A} (status_code : Z) (detail : string) : M A :=
  raise (TypeError "HTTPException() takes no keyword arguments").

(** What an [Integer] column holds. *)
Definition in_int32 (z : Z) : bool := (- 2 ^ 31 <=? z) && (z <? 2 ^ 31).
#[global] Arguments in_int32 : simpl never.

(** Whether the text holds U+0000, which no text column takes. *)
Definition has_nul (text : string) : bool :=
  existsb (fun a => Ascii.eqb a Ascii.zero) (list_ascii_of_string text).
#[global] Arguments has_nul : simpl never.

(** Whether the values of a new row fit their columns: the integers
    are 32-bit, the sequence behind [messages.id] is not exhausted, the
    text holds no U+0000. *)
Definition fits_columns (chat_id sender_id : Z) (text : string) (d : database) : bool :=
  in_int32 chat_id && in_int32 sender_id && in_int32 (message_seq d + 1)
  && negb (has_nul text).
#[global] Arguments fits_columns : simpl never.

(** The sequence behind [messages.id] moves on by one. *)
Definition skip_id (d : database) : database :=
  mk_database (users d) (chats d) (groups d) (messages d) (message_seq d + 1).

(** [db.add(db_message); await db.commit(); await db.refresh(db_message)].
    The statement is not run when a value does not fit its column: the
    driver raises DBAPIError and the database is as before. Otherwise an
    id is drawn, and the row is refused with IntegrityError when a
    foreign key ([chat_id] to [chats.id], [sender_id] to [users.id]) or
    the uniqueness of [message_hash] fails: the id drawn is lost. A row
    that is stored has the id drawn and, as [timestamp], the time of the
    insert. *)
Definition insert_message (chat_id sender_id : Z) (text : string) (is_read : bool)
    (h : string) : M Message.t :=
  fun w =>
    let d := db w in
    if fits_columns chat_id sender_id text d then
      if decide (chat_id ∈ dom (chats d) ∧ sender_id ∈ users d
                 ∧ first_by_hash h (messages d) = None) then
        let m := Message.mk (message_seq d + 1) chat_id sender_id text (utcnow w) is_read h in
        (Ok m, with_db (fun d => mk_database (users d) (chats d) (groups d)
                                   (messages d ++ [m]) (message_seq d + 1)) w)
      else (Raise IntegrityError, with_db skip_id w)
    else (Raise DBAPIError, w).

Definition create_message (message : MessageCreate) : M Message.t :=
  let message_hash :=
    fingerprint (mc_chat_id message) (mc_sender_id message) (mc_text message) in
  let! w := get_world in
  match first_by_hash message_hash (messages (db w)) with
  | Some _ => new_HTTPException 400 "Сообщение уже отправлено"
  | None =>
      insert_message (mc_chat_id message) (mc_sender_id message) (mc_text message)
        (mc_is_read message) message_hash
  end.

Definition set_read (m : Message.t) : Message.t :=
  Message.mk (Message.id m) (Message.chat_id m) (Message.sender_id m) (Message.text m)
    (Message.timestamp m) true (Message.message_hash m).

(** [db_message.is_read = True; await db.commit()] on the row of id [i]. *)
Definition update_read (i : Z) (ms : list Message.t) : list Message.t :=
  map (fun m => if Message.id m =? i then set_read m else m) ms.

Definition commit_read (i : Z) (d : database) : database :=
  mk_database (users d) (chats d) (groups d) (update_read i (messages d)) (message_seq d).

(** The query is not run for an id outside 32 bits. *)
Definition mark_message_as_read (message_id : Z) : M (option Message.t) :=
  if in_int32 message_id then
    let! w := get_world in
    match first_by_id message_id (messages (db w)) with
    | Some db_message =>
        modify (with_db (commit_read (Message.id db_message))) ;;;
        ret (Some (set_read db_message))
    | None => ret None
    end
  else raise DBAPIError.

(* ===================================================================== *)
(** * app/websocket.py: ConnectionManager *)
(* ===================================================================== *)

(** [l.remove(x)]: drops the first occurrence; [None] is the ValueError
    raised when there is none. *)
Fixpoint list_remove (x : conn) (l : list conn) : option (list conn) :=
  match l with
  | [] => None
  | y :: l' => if decide (y = x) then Some l'
               else match list_remove x l' with
                    | Some r => Some (y :: r)
                    | None => None
                    end
  end.

Definition connect (websocket : conn) (chat_id : Z) : M unit :=
  accept websocket ;;;
  modify (with_connections (fun ac =>
    let ac1 := match ac !! chat_id with
               | None => <[chat_id := []]> ac
               | Some _ => ac
               end in
    <[chat_id := (ac1 !!! chat_id) ++ [websocket]]> ac1)).

Definition disconnect (websocket : conn) (chat_id : Z) : M unit :=
  let! w := get_world in
  match active_connections w !! chat_id with
  | Some l =>
      match list_remove websocket l with
      | None => raise (ValueError "list.remove(x): x not in list")
      | Some l' =>
          modify (with_connections (fun ac =>
            if decide (l' = []) then delete chat_id ac else <[chat_id := l']> ac))
      end
  | None => ret tt
  end.

Definition send_personal_message (message : json) (websocket : conn) : M unit :=
  send_text websocket message.

(** The [for] loop of [broadcast]: an exception leaves the loop. *)
Fixpoint send_each (l : list conn) (message : json) : M unit :=
  match l with
  | [] => ret tt
  | connection :: rest => send_text connection message ;;; send_each rest message
  end.

Definition broadcast (chat_id : Z) (message : json) : M unit :=
  let! w := get_world in
  match active_connections w !! chat_id with
  | Some l => send_each l message
  | None => ret tt
  end.

(* ===================================================================== *)
(** * app/websocket.py: websocket_endpoint *)
(* ===================================================================== *)

(** The text [receive_text] returned, given by what [json.loads] makes of
    it: a value, or a JSONDecodeError. *)
Inductive frame_text : Type :=
| Decodes (j : json)
| Garbled.

Definition json_loads (data : frame_text) : M json :=
  match data with
  | Decodes j => ret j
  | Garbled => raise JSONDecodeError
  end.

(** [message_data.get(key)]: only a dict has a [get]. *)
Definition get_field (message_data : json) (key : string) : M json :=
  match message_data with
  | JObj fields => ret (dict_get key fields)
  | _ => raise (AttributeError "object has no attribute 'get'")
  end.

Definition error_frame (detail : string) : json := JObj [("error"%string, JStr detail)].

Definition message_frame (message : Message.t) (action : string) : json :=
  JObj [("id"%string, JInt (Message.id message));
        ("chat_id"%string, JInt (Message.chat_id message));
        ("sender_id"%string, JInt (Message.sender_id message));
        ("text"%string, JStr (Message.text message));
        ("timestamp"%string, JStr (Message.timestamp message));
        ("is_read"%string, JBool (Message.is_read message));
        ("action"%string, JStr action)].

(** What [db.get(models.Group, i)] or [db.get(models.Chat, i)] returned:
    the row and its [id]. *)
Inductive orm_row : Type :=
| ChatRow (id : Z) (c : Chat.t)
| GroupRow (id : Z) (g : Group.t).

Section Core.
Context {L : Libraries}.

(** [await db.get(model, key)] *)
Definition db_get {A} (table : database -> gmap Z A) (key : Z) : M (option (Z * A)) :=
  fun w => match sql_int (JInt key) with
           | Some i => (Ok (pair i <$> table (db w) !! i), w)
           | None => (Raise DBAPIError, w)
           end.

(** [schemas.MessageCreate(chat_id=..., sender_id=..., text=..., is_read=False)] *)
Definition new_MessageCreate (chat_id sender_id text : json) : M MessageCreate :=
  match pydantic_int chat_id, pydantic_int sender_id, pydantic_str text with
  | Some c, Some s, Some t => ret (mk_MessageCreate c s t false)
  | _, _, _ => raise ValidationError
  end.

(** [crud.mark_message_as_read(db, message_id)] on the value taken from
    the frame. *)
Definition crud_mark_message_as_read (message_id : json) : M (option Message.t) :=
  match sql_int message_id with
  | Some i => mark_message_as_read i
  | None => raise DBAPIError
  end.

(** The [if action == ... elif action == ...] of lines 62-111; each
    [continue] is the end of a branch. *)
Definition dispatch (websocket : conn) (chat_or_group_id : Z) (is_group : bool)
    (message_data sender_id text action : json) : M unit :=
  if eq_str action "send_message" then
    let! chat := (if is_group
                  then let! g := db_get groups chat_or_group_id in
                       ret (uncurry GroupRow <$> g)
                  else let! c := db_get chats chat_or_group_id in
                       ret (uncurry ChatRow <$> c)) in
    match chat with
    | None => send_text websocket (error_frame "Чат или группа не найдена")
    | Some chat =>
        (* chat.id if not is_group else chat.chat_id *)
        let chat_id := match chat with
                       | ChatRow id _ => JInt id
                       | GroupRow _ g => match Group.chat_id g with
                                       | Some i => JInt i
                                       | None => JNull
                                       end
                       end in
        let! message_create := new_MessageCreate chat_id sender_id text in
        let! message := create_message message_create in
        broadcast chat_or_group_id (message_frame message "new_message")
    end
  else if eq_str action "mark_as_read" then
    let! message_id := get_field message_data "message_id" in
    if negb (truthy message_id) then
      send_text websocket (error_frame "Не указан ID сообщения")
    else
      let! message := crud_mark_message_as_read message_id in
      match message with
      | None => send_text websocket (error_frame "Сообщение не найдено")
      | Some message => broadcast chat_or_group_id (message_frame message "message_read")
      end
  else ret tt.

(** The [except] clauses of the inner [try], lines 113-117. In the first
    one [e.detail] is read; the class of [http.client] has no such
    attribute. *)
Definition except_inner (websocket : conn) (e : exn) : M unit :=
  match e with
  | HTTPException =>
      raise (AttributeError "'HTTPException' object has no attribute 'detail'")
  | _ => logger_error e ;;;
         send_text websocket (error_frame "Внутренняя ошибка сервера")
  end.

(** The [except] clauses of the outer [try], lines 118-122. *)
Definition except_outer (websocket : conn) (e : exn) : M unit :=
  match e with
  | JSONDecodeError => send_text websocket (error_frame "Неверный формат JSON")
  | _ => logger_error e ;;;
         send_text websocket (error_frame "Внутренняя ошибка сервера")
  end.

(** One turn of the [while True] loop, lines 49-122, on the text that
    [receive_text] returned. *)
Definition handle_frame (websocket : conn) (chat_or_group_id : Z) (is_group : bool)
    (data : frame_text) : M unit :=
  try_except
    (let! message_data := json_loads data in
     let! sender_id := get_field message_data "sender_id" in
     let! text := get_field message_data "text" in
     let! action := get_field message_data "action" in
     if negb (truthy sender_id) || negb (truthy text) then
       send_text websocket (error_frame "Неверный формат сообщения")
     else
       try_except
         (dispatch websocket chat_or_group_id is_group message_data sender_id text action)
         (except_inner websocket))
    (except_outer websocket).

(** The loop over the texts the peer sends; after the last one
    [receive_text] raises, the peer being gone. *)
Fixpoint receive_loop (websocket : conn) (chat_or_group_id : Z) (is_group : bool)
    (inbound : list frame_text) : M unit :=
  match inbound with
  | [] => raise WebSocketDisconnect
  | data :: rest =>
      handle_frame websocket chat_or_group_id is_group data ;;;
      receive_loop websocket chat_or_group_id is_group rest
  end.

Definition websocket_endpoint (websocket : conn) (chat_or_group_id : Z) (is_group : bool)
    (inbound : list frame_text) : M unit :=
  connect websocket chat_or_group_id ;;;
  try_except (receive_loop websocket chat_or_group_id is_group inbound)
    (fun e => disconnect websocket chat_or_group_id ;;; logger_error e).

(* ===================================================================== *)
(** * app/main.py *)
(* ===================================================================== *)

(** The parameters of [websocket_endpoint], line 44 of websocket.py. *)
Definition websocket_endpoint_parameters : list string :=
  ["websocket"; "chat_or_group_id"; "is_group"]%string.

(** A call [websocket_endpoint(websocket, i, is_group=b, k=v, ...)]: a
    keyword that names no parameter raises TypeError before the body
    runs. *)
Definition call_websocket_endpoint (websocket : conn) (chat_or_group_id : Z)
    (is_group : bool) (other_keywords : list string) (inbound : list frame_text) : M unit :=
  match List.find (fun k => negb (bool_decide (k ∈ websocket_endpoint_parameters)))
                  other_keywords with
  | Some k =>
      raise (TypeError (String.append
               "websocket_endpoint() got an unexpected keyword argument '"
               (String.append k "'")))
  | None => websocket_endpoint websocket chat_or_group_id is_group inbound
  end.

(** [websocket.query_params.get(key)] *)
Fixpoint query_get (key : string) (query_params : list (string * string)) : option string :=
  match query_params with
  | [] => None
  | (k, v) :: rest => if String.eqb k key then Some v else query_get key rest
  end.

(** [not v] for what [query_params.get] returned. *)
Definition missing (v : option string) : bool :=
  match v with
  | None => true
  | Some s => String.eqb s EmptyString
  end.

(** [int(v)] *)
Definition py_int (v : option string) : M Z :=
  match v with
  | Some s => match int_of_str s with
              | Some i => ret i
              | None => raise (ValueError "invalid literal for int()")
              end
  | None => raise (TypeError "int() argument must be a string")
  end.

Definition credentials_exception : exn :=
  FastAPIHTTPException 401 "Could not validate credentials".

Definition get_current_user_websocket (token : string) : M json :=
  try_except
    (match jwt_decode token with
     | None => raise JWTError
     | Some payload =>
         match dict_get "sub" payload with
         | JNull => raise credentials_exception
         | email => ret email
         end
     end)
    (fun e => match e with
              | JWTError => raise credentials_exception
              | _ => raise e
              end).

Definition WS_1008_POLICY_VIOLATION : Z := 1008.

(** [websocket_route]; [inbound] is what the peer will send once the
    session runs. The [try] around [get_current_user_websocket] yields
    the email, or [None] where its handler returns from the route. *)
Definition websocket_route (websocket : conn) (query_params : list (string * string))
    (inbound : list frame_text) : M unit :=
  let token := query_get "token" query_params in
  if missing token then
    close websocket WS_1008_POLICY_VIOLATION "Токен обязателен"
  else
    let! email := try_except
                    (let! email := get_current_user_websocket (default EmptyString token) in
                     ret (Some email))
                    (fun e => match e with
                              | FastAPIHTTPException _ _ =>
                                  close websocket WS_1008_POLICY_VIOLATION "Неверный токен" ;;;
                                  ret None
                              | _ => raise e
                              end) in
    match email with
    | None => ret tt
    | Some email =>
        let chat_id := query_get "chat_id" query_params in
        let group_id := query_get "group_id" query_params in
        if missing chat_id && missing group_id then
          close websocket WS_1008_POLICY_VIOLATION "chat_id или group_id обязателен"
        else
          accept websocket ;;;
          if negb (missing chat_id) then
            let! i := py_int chat_id in
            call_websocket_endpoint websocket i false ["user_email"%string] inbound
          else if negb (missing group_id) then
            let! i := py_int group_id in
            call_websocket_endpoint websocket i true ["user_email"%string] inbound
          else ret tt
    end.

End Core.

(* ===================================================================== *)
(** * A reference instance of the libraries, and sample data *)
(* ===================================================================== *)

(** The strictest libraries the assumptions allow: values of the exact
    type only, 32-bit integers only, decimal literals only, and one
    token, ["good"], for the principal ["a@b.c"]. *)
Definition strict_libraries : Libraries.
Proof.
  refine {|
    pydantic_int := fun v => match v with JInt z => Some z | _ => None end;
    pydantic_str := fun v => match v with JStr s => Some s | _ => None end;
    sql_int := fun v => match v with
                        | JInt z => if (- 2 ^ 31 <=? z) && (z <? 2 ^ 31) then Some z else None
                        | _ => None
                        end;
    int_of_str := fun s => option_map Z.of_int (NilZero.int_of_string s);
    jwt_decode := fun token =>
      if String.eqb token "good" then Some [("sub"%string, JStr "a@b.c")] else None |}.
  - reflexivity.
  - reflexivity.
  - reflexivity.
  - intros z Hz.
    destruct (Z.leb_spec (- 2 ^ 31) z); [| lia].
    destruct (Z.ltb_spec z (2 ^ 31)); [reflexivity | lia].
  - intros v i. destruct v; try discriminate.
    destruct (Z.leb_spec (- 2 ^ 31) z); [| discriminate].
    destruct (Z.ltb_spec z (2 ^ 31)); [| discriminate].
    intros [= <-]. lia.
  - intros z. unfold str_int. rewrite NilZero.isi.
    + simpl. f_equal. apply DecimalZ.of_to.
    + destruct z; simpl; try discriminate.
      intros [= H]. revert H. apply DecimalPos.Unsigned.to_uint_nonnil.
    + destruct z; simpl; try discriminate.
      intros [= H]. revert H. apply DecimalPos.Unsigned.to_uint_nonnil.
Defined.

Definition sample_db : database :=
  mk_database {[1; 2]}
    {[42 := Chat.mk None (Some "personal"%string) (Some 1) (Some 2)]}
    {[7 := Group.mk (Some "team"%string) (Some 1) (Some 42)]}
    [] 0.

(** What a server has sent once connections 10, 11 and 12 are accepted. *)
Definition sample_wire : list wire_event :=
  [Accepted 10%nat; Accepted 11%nat; Accepted 12%nat].

(** Connections 10 and 11 are bound to conversation 42, connection 12 to
    conversation 7; every peer is there. *)
Definition sample_world : world :=
  mk_world {[42 := [10%nat; 11%nat]; 7 := [12%nat]]} sample_db ∅
    "2025-01-01T00:00:00"%string sample_wire [].

(** The same, with the peer of connection 10 gone. *)
Definition sample_world_gone : world :=
  mk_world {[42 := [10%nat; 11%nat]; 7 := [12%nat]]} sample_db {[10%nat]}
    "2025-01-01T00:00:00"%string sample_wire [].

Definition empty_world : world :=
  mk_world ∅ sample_db ∅ "2025-01-01T00:00:00"%string [] [].

(** Message 1, "hi" from user 1 in chat 42, as [create_message] stores
    it, and the sample world once it is stored. *)
Definition sample_message : Message.t :=
  Message.mk 1 42 1 "hi" "2025-01-01T00:00:00" false (fingerprint 42 1 "hi").

Definition sample_world_message : world :=
  mk_world {[42 := [10%nat; 11%nat]; 7 := [12%nat]]}
    (mk_database (users sample_db) (chats sample_db) (groups sample_db)
       [sample_message] 1)
    ∅ "2025-01-01T00:00:00"%string sample_wire [].

(** [{"action": "mark_as_read", "message_id": i}] *)
Definition mark_as_read_frame (i : Z) : frame_text :=
  Decodes (JObj [("action"%string, JStr "mark_as_read");
                 ("message_id"%string, JInt i)]).

(** [{"action": "send_message", "sender_id": s, "text": t}] *)
Definition send_message_fields (s : Z) (t : string) : list (string * json) :=
  [("action"%string, JStr "send_message");
   ("sender_id"%string, JInt s);
   ("text"%string, JStr t)].

Definition send_message_frame (s : Z) (t : string) : frame_text :=
  Decodes (JObj (send_message_fields s t)).

(* ===================================================================== *)
(** * Notions used in the statements *)
(* ===================================================================== *)

(** One completed operation of the registry: a [connect] or a
    [disconnect], whether it returned or raised. *)
Inductive registry_step : world -> world -> Prop :=
| step_register ws c w : registry_step w (connect ws c w).2
| step_unregister ws c w : registry_step w (disconnect ws c w).2.

(** What happens around the core: peers leave, time passes, and the REST
    endpoints add users, chats and groups. The messages, the registry,
    the wire and the log are the core's own. *)
Record world_moves (w w' : world) : Prop := mk_world_moves {
  moves_connections : active_connections w' = active_connections w;
  moves_wire : wire w' = wire w;
  moves_log : log w' = log w;
  moves_messages : messages (db w') = messages (db w);
  moves_chats : chats (db w) ⊆ chats (db w');
  moves_groups : groups (db w) ⊆ groups (db w') }.

(** One step of the messaging core: some connection has a frame handled,
    the registry does an operation, or the world moves. *)
Inductive core_step `{L : Libraries} : world -> world -> Prop :=
| step_frame ws c is_group data w :
    core_step w (handle_frame ws c is_group data w).2
| step_registry w w' : registry_step w w' -> core_step w w'
| step_world w w' : world_moves w w' -> core_step w w'.

(** Every stored hash is the fingerprint of its row, and no two rows
    share one ([message_hash] is declared unique). *)
Definition db_consistent (d : database) : Prop :=
  Forall (fun m => Message.message_hash m =
                   fingerprint (Message.chat_id m) (Message.sender_id m) (Message.text m))
         (messages d)
  /\ NoDup (map Message.message_hash (messages d)).

Definition same_triple (chat_id sender_id : Z) (text : string) (m : Message.t) : bool :=
  (Message.chat_id m =? chat_id) && (Message.sender_id m =? sender_id)
  && String.eqb (Message.text m) text.

(** How many stored messages have the triple. *)
Definition count_triple (chat_id sender_id : Z) (text : string) (ms : list Message.t) : nat :=
  length (List.filter (same_triple chat_id sender_id text) ms).

(** The frame decodes to a dict whose action is send_message, whose
    sender_id is the int [s] and whose text is the str [t]. *)
Definition is_send_message (fields : list (string * json)) (s : Z) (t : string) : Prop :=
  eq_str (dict_get "action" fields) "send_message" = true
  /\ dict_get "sender_id" fields = JInt s
  /\ dict_get "text" fields = JStr t.

(** No key of the registry maps to an empty list. *)
Definition no_empty_entry (ac : gmap Z (list conn)) : Prop :=
  forall c l, ac !! c = Some l -> l <> [].

(** The members of a conversation, in the order [broadcast] visits them. *)
Definition members (w : world) (chat_id : Z) : list conn :=
  default [] (active_connections w !! chat_id).

(** Every list of the registry holds a connection at most once, and holds
    connections whose handshake was answered. *)
Definition registered_once (w : world) : Prop :=
  forall c l, active_connections w !! c = Some l ->
    NoDup l /\ Forall (fun x => answered x (wire w) = true) l.

(** The entries of [l] up to the first one whose peer is gone. *)
Fixpoint live_prefix (gone : gset conn) (l : list conn) : list conn :=
  match l with
  | [] => []
  | ws :: rest => if decide (ws ∈ gone) then [] else ws :: live_prefix gone rest
  end.

(** The event [message] on the wire of each of [l], in order. *)
Definition deliveries (l : list conn) (message : json) : list wire_event :=
  map (fun ws => Sent ws message) l.

(** The chat id under which a send_message of the conversation is
    persisted: the id of the chat, or the [chat_id] of the group. *)
Definition persistence_target `{L : Libraries} (d : database) (chat_or_group_id : Z)
    (is_group : bool) : option Z :=
  match sql_int (JInt chat_or_group_id) with
  | Some i =>
      if is_group then
        match groups d !! i with
        | Some g => Group.chat_id g
        | None => None
        end
      else
        match chats d !! i with
        | Some _ => Some i
        | None => None
        end
  | None => None
  end.

(** A computation that leaves the database as it is. *)
Definition db_stable {A} (m : M A) : Prop := forall w, db (m w).2 = db w.

(** How the database evolves: chats and groups stay, consistency stays,
    and a stored triple stays stored. *)
Definition db_evolves (d d' : database) : Prop :=
  chats d ⊆ chats d' /\ groups d ⊆ groups d' /\
  (db_consistent d -> db_consistent d') /\
  (forall c s t, (0 < count_triple c s t (messages d))%nat ->
                 (0 < count_triple c s t (messages d'))%nat).

Definition evolving {A} (m : M A) : Prop := forall w, db_evolves (db w) (db (m w).2).

(* ===================================================================== *)
(** * More of app/crud.py: personal chats *)
(* ===================================================================== *)

(** [column == value] in a filter: a NULL column equals nothing. *)
Definition column_is (column : option Z) (value : Z) : bool :=
  match column with
  | Some x => x =? value
  | None => false
  end.

(** The filter of [create_personal_chat]:
    [(user1_id == a) & (user2_id == b) | (user1_id == b) & (user2_id == a)],
    then [type == "personal"]. *)
Definition personal_chat_between (a b : Z) (c : Chat.t) : bool :=
  (column_is (Chat.user1_id c) a && column_is (Chat.user2_id c) b
   || column_is (Chat.user1_id c) b && column_is (Chat.user2_id c) a)
  && match Chat.type c with
     | Some ty => String.eqb ty "personal"
     | None => false
     end.

(** Whether [existing_chat.scalars().first()] is a row. *)
Definition existing_personal_chat (a b : Z) (d : database) : bool :=
  existsb (fun kv => personal_chat_between a b kv.2) (map_to_list (chats d)).

(** [db.add(db_chat); await db.commit(); await db.refresh(db_chat)] for a
    chat; [new_id] is the value the sequence behind [chats.id] yields.
    The insert is refused when the key is taken or when a user column
    names no user. *)
Definition insert_chat (new_id : Z) (row : Chat.t) : M (Z * Chat.t) :=
  fun w =>
    let d := db w in
    let is_user column := match column with
                          | Some u => bool_decide (u ∈ users d)
                          | None => true
                          end in
    if bool_decide (new_id ∉ dom (chats d))
       && is_user (Chat.user1_id row) && is_user (Chat.user2_id row) then
      (Ok (new_id, row),
       with_db (fun d => mk_database (users d) (<[new_id := row]> (chats d)) (groups d)
                           (messages d) (message_seq d)) w)
    else (Raise IntegrityError, w).

Definition create_personal_chat (new_id : Z) (user1_id user2_id : Z) : M (Z * Chat.t) :=
  let! w := get_world in
  if existing_personal_chat user1_id user2_id (db w) then
    new_HTTPException 400 "Личный чат уже существует"
  else
    insert_chat new_id (Chat.mk None (Some "personal"%string) (Some user1_id) (Some user2_id)).

(* ===================================================================== *)
(** * More notions used in the statements *)
(* ===================================================================== *)

(** A computation whose every run takes the world to a related one. *)
Definition respects {A} (R : world -> world -> Prop) (m : M A) : Prop :=
  forall w, R w (m w).2.

(** What no frame touches: the registry, the peers, the clock. *)
Definition same_surroundings (w w' : world) : Prop :=
  active_connections w' = active_connections w /\ gone w' = gone w /\ utcnow w' = utcnow w.

(** The message ids are distinct and were all drawn from the sequence. *)
Definition ids_in_sequence (d : database) : Prop :=
  Forall (fun m => Message.id m <= message_seq d) (messages d)
  /\ NoDup (map Message.id (messages d)).

Definition ids_kept (w w' : world) : Prop :=
  ids_in_sequence (db w) -> ids_in_sequence (db w').

(** A stored row and what it may become: itself, or itself read. *)
Definition read_at_most (m m' : Message.t) : Prop := m' = m \/ m' = set_read m.

(** The stored rows stay, in order, up to their [is_read]; rows are only
    added at the end. *)
Definition messages_kept (w w' : world) : Prop :=
  exists kept added,
    messages (db w') = kept ++ added /\ Forall2 read_at_most (messages (db w)) kept.

(** What a frame submitted on [ws] for conversation [c] may put on the
    wire: an error frame for [ws], or a message event for a connection
    registered for [c]. *)
Definition frame_event (ws : conn) (c : Z) (ac : gmap Z (list conn)) (ev : wire_event) : Prop :=
  (exists detail, ev = Sent ws (error_frame detail))
  \/ (exists x m action, ev = Sent x (message_frame m action) /\ x ∈ default [] (ac !! c)).

Definition wire_kept (ws : conn) (c : Z) (w w' : world) : Prop :=
  active_connections w' = active_connections w /\
  exists events, wire w' = wire w ++ events
                 /\ Forall (frame_event ws c (active_connections w)) events.

(** A lowercase hexadecimal digit. *)
Definition is_hex (a : ascii) : bool :=
  let n := N_of_ascii a in
  ((48 <=? n) && (n <=? 57) || (97 <=? n) && (n <=? 102))%N.

(** The row [create_message] stores for a triple, in a given world. *)
Definition new_row (w : world) (chat_id sender_id : Z) (text : string) : Message.t :=
  Message.mk (message_seq (db w) + 1) chat_id sender_id text (utcnow w) false
    (fingerprint chat_id sender_id text).

Definition store_row (m : Message.t) (d : database) : database :=
  mk_database (users d) (chats d) (groups d) (messages d ++ [m]) (message_seq d + 1).

(** Users 1 and 2 have their personal chat 42; user 3 is new. *)
Definition sample_world_users : world :=
  mk_world ∅
    (mk_database {[1; 2; 3]} (chats sample_db) (groups sample_db) [] 0)
    ∅ "2025-01-01T00:00:00"%string [] [].

(** Group 8 as the REST endpoint creates groups: without a chat. *)
Definition sample_world_bare_group : world :=
  mk_world {[8 := [10%nat]]}
    (mk_database {[1; 2]} (chats sample_db)
       {[8 := Group.mk (Some "bare"%string) (Some 1) None]} [] 0)
    ∅ "2025-01-01T00:00:00"%string [Accepted 10%nat] [].

(** The registry and the database are what they were. *)
Definition same_state (w w' : world) : Prop :=
  active_connections w' = active_connections w /\ db w' = db w.

(* ===================================================================== *)
(** * SHA-256 against the digests hashlib prints *)
(* ===================================================================== *)

Example sha256_constants :
  length SHA256.K = 64%nat /\
  head SHA256.K = Some 0x428a2f98 /\ last SHA256.K = Some 0xc67178f2 /\
  head SHA256.H0 = Some 0x6a09e667 /\ last SHA256.H0 = Some 0x5be0cd19.
Proof. vm_compute. repeat split; reflexivity. Qed.

Example sha256_empty :
  SHA256.hexdigest [] =
  "e3b0c44298fc1c149afbf4c8996fb92427ae41e4649b934ca495991b7852b855"%string.
Proof. vm_compute. reflexivity. Qed.

Example sha256_abc :
  SHA256.hexdigest (list_byte_of_string "abc") =
  "ba7816bf8f01cfea414140de5dae2223b00361a396177a9cb410ff61f20015ad"%string.
Proof. vm_compute. reflexivity. Qed.

(** Fifty-six bytes: the padding takes a second block. *)
Example sha256_two_blocks :
  SHA256.hexdigest (repeat "b"%byte 56) =
  "a5fc6e203a4c2b657d0d153885932414b2ffc6a93f0f8bf8b3183315e5a7212c"%string.
Proof. vm_compute. reflexivity. Qed.

Example fingerprint_42_1_hi :
  fingerprint 42 1 "hi" =
  "7673c2ed9b96de7d92b845da2dc3cf6c7961e9e4143033255404423c6f043e7b"%string.
Proof. vm_compute. reflexivity. Qed.

Example fingerprint_cyrillic :
  fingerprint 42 1 "привет" =
  "527e953c8875654f1edf0a1fa985e149fc1575ca91b94d2184efc98d8dd1b409"%string.
Proof. vm_compute. reflexivity. Qed.

(* ===================================================================== *)
(** * The pre-hash text determines its three components *)
(* ===================================================================== *)

Section Prehash.










End Prehash.

(* ===================================================================== *)
(** * The connection registry *)
(* ===================================================================== *)

Section Registry.

Implicit Types (w : world) (ws : conn) (c : Z) (l : list conn).

(** [connect] in one step: the dict entry is created when absent, then
    appended to; nothing is appended when [accept] raises. *)
Lemma connect_eq ws c w :
  connect ws c w =
  if answered ws (wire w) then (Raise RuntimeError, w)
  else if decide (ws ∈ gone w) then (Raise WebSocketDisconnect, w)
  else (Ok tt,
        with_connections (fun ac => <[c := members w c ++ [ws]]> ac)
          (with_wire (fun t => t ++ [Accepted ws]) w)).
Proof.
  unfold connect, bind, accept, modify, members.
  destruct (answered ws (wire w)); [reflexivity |].
  destruct (decide (ws ∈ gone w)); [reflexivity |].
  unfold with_connections, with_wire; simpl. do 2 f_equal.
  destruct (active_connections w !! c) as [l |] eqn:E; simpl.
  - by rewrite lookup_total_alt, E.
  - by rewrite lookup_total_insert_eq, insert_insert_eq.
Qed.

(** Where the handshake is still open, [connect] registers. *)
Lemma connect_fresh ws c w :
  ws ∉ gone w -> answered ws (wire w) = false ->
  connect ws c w =
  (Ok tt,
   with_connections (fun ac => <[c := members w c ++ [ws]]> ac)
     (with_wire (fun t => t ++ [Accepted ws]) w)).
Proof. intros Hg Ha. by rewrite connect_eq, Ha, decide_False. Qed.

(** [connect] never changes the world when it raises. *)
Lemma connect_raise ws c w e : (connect ws c w).1 = Raise e -> (connect ws c w).2 = w.
Proof.
  rewrite connect_eq. destruct (answered ws (wire w)); [done |].
  by destruct (decide (ws ∈ gone w)).
Qed.

Lemma list_remove_elem ws l l' : list_remove ws l = Some l' -> ws ∈ l.
Proof.
  revert l'. induction l as [| y l IH]; intros l' H; simpl in H; [done |].
  destruct (decide (y = ws)) as [-> |]; [apply list_elem_of_here |].
  destruct (list_remove ws l); [| done]. apply list_elem_of_further. eauto.
Qed.

Lemma list_remove_None ws l : ws ∉ l -> list_remove ws l = None.
Proof.
  induction l as [| y l IH]; intros H; simpl; [done |].
  apply not_elem_of_cons in H as [Hne H].
  destruct (decide (y = ws)); [congruence |]. by rewrite IH.
Qed.

Lemma list_remove_once ws l :
  count_occ Nat.eq_dec l ws = 1%nat ->
  exists l', list_remove ws l = Some l' /\ ws ∉ l'.
Proof.
  induction l as [| y l IH]; simpl; [done |].
  destruct (Nat.eq_dec y ws) as [-> | Hne]; intros H.
  - exists l. destruct (decide (ws = ws)); [| done]. split; [done |].
    rewrite list_elem_of_In. apply (count_occ_not_In Nat.eq_dec). lia.
  - destruct (IH H) as (l' & -> & Hl'). exists (y :: l').
    destruct (decide (y = ws)); [done |]. split; [done |].
    apply not_elem_of_cons. auto.
Qed.

(** [disconnect], by cases on the registry. *)
Lemma disconnect_no_entry ws c w :
  active_connections w !! c = None -> disconnect ws c w = (Ok tt, w).
Proof. intros E. unfold disconnect, bind, get_world. by rewrite E. Qed.

Lemma disconnect_not_member ws c w l :
  active_connections w !! c = Some l -> ws ∉ l ->
  disconnect ws c w = (Raise (ValueError "list.remove(x): x not in list"), w).
Proof.
  intros E H. unfold disconnect, bind, get_world. rewrite E.
  by rewrite (list_remove_None _ _ H).
Qed.

Lemma disconnect_member ws c w l l' :
  active_connections w !! c = Some l -> list_remove ws l = Some l' ->
  disconnect ws c w =
  (Ok tt, with_connections (fun ac => if decide (l' = []) then delete c ac
                                      else <[c := l']> ac) w).
Proof. intros E H. unfold disconnect, bind, get_world. by rewrite E, H. Qed.

Lemma registry_step_no_empty_entry w w' :
  registry_step w w' ->
  no_empty_entry (active_connections w) -> no_empty_entry (active_connections w').
Proof.
  intros Hstep Hinv. destruct Hstep as [ws c w | ws c w].
  - rewrite connect_eq. destruct (answered ws (wire w)); [done |].
    destruct (decide (ws ∈ gone w)); [done |].
    simpl. intros c' l. destruct (decide (c = c')) as [<- |].
    + rewrite lookup_insert_eq. intros [= <-]. by destruct (members w c).
    + rewrite lookup_insert_ne by done. apply Hinv.
  - destruct (active_connections w !! c) as [l |] eqn:E.
    + destruct (list_remove ws l) as [l' |] eqn:R.
      * rewrite (disconnect_member _ _ _ _ _ E R). simpl.
        intros c' l0. destruct (decide (l' = [])).
        -- destruct (decide (c = c')) as [<- |].
           ++ by rewrite lookup_delete_eq.
           ++ rewrite lookup_delete_ne by done. apply Hinv.
        -- destruct (decide (c = c')) as [<- |].
           ++ rewrite lookup_insert_eq. congruence.
           ++ rewrite lookup_insert_ne by done. apply Hinv.
      * unfold disconnect, bind, get_world. by rewrite E, R.
    + by rewrite disconnect_no_entry.
Qed.

(** C6. In every state of the registry reached from the empty registry
    by completed register and unregister operations, every conversation
    id present as a key maps to a non-empty list of connections; and the
    entry is removed as soon as its last connection leaves: unregistering
    a connection takes the key away exactly when the list is left empty,
    so unregistering the only member of a conversation deletes its
    key. *)
Theorem registry_never_holds_empty_entry w0 w :
  active_connections w0 = ∅ ->
  rtc registry_step w0 w ->
  (forall c l, active_connections w !! c = Some l -> l <> []) /\
  (forall ws c l l',
     active_connections w !! c = Some l -> list_remove ws l = Some l' ->
     (disconnect ws c w).1 = Ok tt /\
     active_connections (disconnect ws c w).2 !! c
       = if decide (l' = []) then None else Some l') /\
  (forall ws c,
     active_connections w !! c = Some [ws] ->
     disconnect ws c w = (Ok tt, with_connections (delete c) w) /\
     active_connections (disconnect ws c w).2 !! c = None).
Proof.
  intros Hinit Hsteps. split; [| split].
  - assert (Hinv : no_empty_entry (active_connections w0)).
    { intros c l. by rewrite Hinit, lookup_empty. }
    clear Hinit. induction Hsteps as [w | w1 w2 w3 Hstep _ IH]; [exact Hinv |].
    apply IH. eapply registry_step_no_empty_entry; eauto.
  - intros ws c l l' E R. rewrite (disconnect_member _ _ _ _ _ E R). simpl.
    split; [reflexivity |]. destruct (decide (l' = [])).
    + apply lookup_delete_eq.
    + apply lookup_insert_eq.
  - intros ws c E.
    assert (R : list_remove ws [ws] = Some []).
    { simpl. by rewrite decide_True. }
    rewrite (disconnect_member _ _ _ _ _ E R). simpl.
    split; [reflexivity | apply lookup_delete_eq].
Qed.

(** Connection 10 registers for conversation 42 and is its only member;
    when it leaves, the key 42 is deleted and the registry is empty
    again. *)
Lemma registry_never_holds_empty_entry_witness :
  let w := (connect 10%nat 42 empty_world).2 in
  active_connections w !! 42 = Some [10%nat] /\
  disconnect 10%nat 42 w = (Ok tt, with_connections (delete 42) w) /\
  active_connections (disconnect 10%nat 42 w).2 !! 42 = None.
Proof.
  split; [vm_compute; reflexivity |].
  exact (proj2 (proj2 (registry_never_holds_empty_entry empty_world
                         (connect 10%nat 42 empty_world).2 eq_refl
                         (rtc_once _ _ (step_register 10%nat 42 empty_world))))
           10%nat 42 eq_refl).
Defined.

(** C8 as stated fails: connection 99 is no member of conversation 42,
    which has an entry; unregistering it raises ValueError. *)
Lemma unregister_non_member_raises :
  active_connections sample_world !! 42 = Some [10%nat; 11%nat] /\
(99%nat ∉ [10%nat; 11%nat]) /\
  (disconnect 99%nat 42 sample_world).1
    = Raise (ValueError "list.remove(x): x not in list").
Proof.
  split; [vm_compute; reflexivity |]. split; [| vm_compute; reflexivity].
  intros H. repeat (apply elem_of_cons in H as [H | H]; [discriminate |]).
  by apply elem_of_nil in H.
Qed.

(** C8, amended. Unregistering from a conversation id that has no entry
    changes nothing and raises nothing; unregistering a connection that
    is no member of an existing entry changes nothing but raises
    ValueError; and after a connection registered once has been
    unregistered, unregistering it again changes nothing further. *)
Theorem unregister_absent_target w ws c :
  (active_connections w !! c = None -> disconnect ws c w = (Ok tt, w)) /\
  (forall l, active_connections w !! c = Some l -> ws ∉ l ->
     disconnect ws c w = (Raise (ValueError "list.remove(x): x not in list"), w)) /\
  (forall l, active_connections w !! c = Some l -> count_occ Nat.eq_dec l ws = 1%nat ->
     exists w1, disconnect ws c w = (Ok tt, w1) /\ (disconnect ws c w1).2 = w1).
Proof.
  split; [apply disconnect_no_entry |]. split; [apply disconnect_not_member |].
  intros l E Hocc. destruct (list_remove_once _ _ Hocc) as (l' & R & Hl').
  eexists. split; [exact (disconnect_member _ _ _ _ _ E R) |].
  destruct (decide (l' = [])).
  - rewrite disconnect_no_entry; [done |]. simpl. apply lookup_delete_eq.
  - rewrite (disconnect_not_member _ _ _ l'); [done | | done].
    simpl. apply lookup_insert_eq.
Qed.

Lemma unregister_absent_target_witness :
  (disconnect 10%nat 5 sample_world = (Ok tt, sample_world)) /\
  (disconnect 99%nat 42 sample_world
   = (Raise (ValueError "list.remove(x): x not in list"), sample_world)) /\
  (exists w1, disconnect 12%nat 7 sample_world = (Ok tt, w1) /\
              (disconnect 12%nat 7 w1).2 = w1).
Proof.
  split; [| split].
  - apply (unregister_absent_target sample_world 10%nat 5). vm_compute; reflexivity.
  - apply (unregister_absent_target sample_world 99%nat 42) with (l := [10%nat; 11%nat]).
    + vm_compute; reflexivity.
    + intros H. repeat (apply elem_of_cons in H as [H | H]; [discriminate |]).
      by apply elem_of_nil in H.
  - apply (unregister_absent_target sample_world 12%nat 7) with (l := [12%nat]).
    + vm_compute; reflexivity.
    + reflexivity.
Defined.

End Registry.

(* ===================================================================== *)
(** * broadcast *)
(* ===================================================================== *)

Section Broadcast.

Lemma with_wire_nil w : with_wire (fun t => t ++ []) w = w.
Proof. destruct w. unfold with_wire. simpl. by rewrite app_nil_r. Qed.

Lemma send_each_eq l message w :
  send_each l message w =
  (if decide (Forall (fun ws => ws ∉ gone w) l) then Ok tt
   else Raise WebSocketDisconnect,
   with_wire (fun t => t ++ deliveries (live_prefix (gone w) l) message) w).
Proof.
  revert w. induction l as [| ws l IH]; intros w; simpl.
  - by rewrite with_wire_nil.
  - unfold bind, send_text. destruct (decide (ws ∈ gone w)) as [Hg | Hg]; simpl.
    + rewrite with_wire_nil. rewrite decide_False; [done |].
      intros H. by apply Forall_cons in H as [? _].
    + rewrite IH. simpl. f_equal.
      * destruct (decide (Forall _ l)) as [H | H];
          destruct (decide (Forall _ (ws :: l))) as [H' | H']; try done.
        -- destruct H'. by constructor.
        -- by apply Forall_cons in H' as [_ ?].
      * unfold with_wire. simpl. by rewrite <- app_assoc.
Qed.

Lemma live_prefix_all gone l :
  Forall (fun ws => ws ∉ gone) l -> live_prefix gone l = l.
Proof.
  induction 1 as [| ws l H _ IH]; simpl; [done |].
  destruct (decide (ws ∈ gone)); [done |]. by rewrite IH.
Qed.

Lemma broadcast_eq w c message :
  broadcast c message w =
    (if decide (Forall (fun ws => ws ∉ gone w) (members w c)) then Ok tt
     else Raise WebSocketDisconnect,
     with_wire (fun t => t ++ deliveries (live_prefix (gone w) (members w c)) message) w).
Proof.
  rewrite <- send_each_eq. unfold broadcast, bind, get_world, members.
  by destruct (active_connections w !! c).
Qed.

Lemma broadcast_live w c message :
  Forall (fun ws => ws ∉ gone w) (members w c) ->
  broadcast c message w =
    (Ok tt, with_wire (fun t => t ++ deliveries (members w c) message) w).
Proof.
  intros H. rewrite broadcast_eq, (live_prefix_all _ _ H). by rewrite decide_True.
Qed.

(** C2 as stated fails: conversation 42 holds connections 10 and 11 and
    the peer of 10 is gone; the broadcast raises at 10, connection 11 is
    sent nothing, and the exception reaches the caller. *)
Lemma broadcast_aborts_on_failure :
  active_connections sample_world_gone !! 42 = Some [10%nat; 11%nat] /\
(11%nat ∉ gone sample_world_gone) /\
  broadcast 42 (error_frame "x") sample_world_gone
    = (Raise WebSocketDisconnect, sample_world_gone).
Proof.
  split; [vm_compute; reflexivity |]. split; [| vm_compute; reflexivity].
  vm_compute. set_solver.
Qed.

(** C2, amended. [broadcast] sends the event to the entries of the
    conversation's list in order, once per entry, up to the first whose
    send fails. When no send fails every entry is sent the event once and
    [broadcast] returns; when one fails the entries after it are sent
    nothing and the exception reaches the caller. *)
Theorem broadcast_stops_at_first_failure w c message :
  broadcast c message w =
    (if decide (Forall (fun ws => ws ∉ gone w) (members w c)) then Ok tt
     else Raise WebSocketDisconnect,
     with_wire (fun t => t ++ deliveries (live_prefix (gone w) (members w c)) message) w)
  /\ (Forall (fun ws => ws ∉ gone w) (members w c) ->
      broadcast c message w =
        (Ok tt, with_wire (fun t => t ++ deliveries (members w c) message) w)).
Proof. split; [apply broadcast_eq | apply broadcast_live]. Qed.

Lemma broadcast_stops_at_first_failure_witness :
  broadcast 42 (error_frame "x") sample_world =
    (Ok tt, with_wire (fun t => t ++ deliveries (members sample_world 42) (error_frame "x"))
              sample_world).
Proof.
  apply (broadcast_stops_at_first_failure sample_world 42 (error_frame "x")).
  vm_compute. repeat constructor; set_solver.
Defined.

End Broadcast.

(* ===================================================================== *)
(** * One frame of the receive loop *)
(* ===================================================================== *)

Section Frames.
Context {L : Libraries}.

Implicit Types (w : world) (ws : conn) (c : Z) (fields : list (string * json)).

Ltac run :=
  unfold handle_frame, except_inner, except_outer, dispatch, crud_mark_message_as_read, mark_message_as_read,
    new_MessageCreate, db_get, try_except, bind, ret, raise, json_loads, get_field,
    get_world, modify, logger_error, new_HTTPException; simpl.

Lemma in_int32_spec z : in_int32 z = true <-> - 2 ^ 31 <= z < 2 ^ 31.
Proof. unfold in_int32. rewrite andb_true_iff, Z.leb_le, Z.ltb_lt. tauto. Qed.

(** An id the driver has bound fits the [Integer] column. *)
Lemma sql_int_in_int32 v i : sql_int v = Some i -> in_int32 i = true.
Proof. intros H. apply in_int32_spec. by apply (sql_int_int32 v). Qed.

Lemma send_text_live ws payload w :
  ws ∉ gone w ->
  send_text ws payload w = (Ok tt, with_wire (fun t => t ++ [Sent ws payload]) w).
Proof. intros H. unfold send_text. by rewrite decide_False. Qed.

Lemma eq_str_true v lit : eq_str v lit = true -> v = JStr lit.
Proof.
  destruct v; simpl; try discriminate. intros H. by apply String.eqb_eq in H as ->.
Qed.

(** A frame handled without an exception lets the loop read the next
    one. *)
Lemma receive_loop_continues ws c is_group data rest w w' :
  handle_frame ws c is_group data w = (Ok tt, w') ->
  receive_loop ws c is_group (data :: rest) w = receive_loop ws c is_group rest w'.
Proof. intros H. simpl. unfold bind. by rewrite H. Qed.

(** C9. Whatever its action, a frame whose sender_id or whose text is not
    truthy (absent, null, 0, the empty string, ...) is answered with the
    malformed-message error frame on the submitting connection and with
    nothing else: the database and the registry are as before, and no
    other connection is sent anything. *)
Theorem guard_requires_sender_and_text ws c is_group fields w :
  truthy (dict_get "sender_id" fields) = false \/
  truthy (dict_get "text" fields) = false ->
  ws ∉ gone w ->
  handle_frame ws c is_group (Decodes (JObj fields)) w =
    (Ok tt,
     with_wire (fun t => t ++ [Sent ws (error_frame "Неверный формат сообщения")]) w).
Proof.
  intros Hfalsy Hlive. run.
  assert (negb (truthy (dict_get "sender_id" fields))
          || negb (truthy (dict_get "text" fields)) = true) as ->.
  { destruct Hfalsy as [-> | ->]; [done | apply orb_true_r]. }
  by rewrite send_text_live.
Qed.

(** C4. What the code does with an unknown action when sender_id and
    text are truthy: neither branch of the dispatch is taken, nothing is
    sent to anyone, and the loop goes on to the next frame. *)
Theorem unknown_action_is_dropped ws c is_group fields w :
  truthy (dict_get "sender_id" fields) = true ->
  truthy (dict_get "text" fields) = true ->
  eq_str (dict_get "action" fields) "send_message" = false ->
  eq_str (dict_get "action" fields) "mark_as_read" = false ->
  handle_frame ws c is_group (Decodes (JObj fields)) w = (Ok tt, w).
Proof. intros Hs Ht Ha1 Ha2. run. by rewrite Hs, Ht, Ha1, Ha2. Qed.

Lemma first_by_id_id i ms m : first_by_id i ms = Some m -> Message.id m = i.
Proof.
  unfold first_by_id. intros H. apply find_some in H as [_ H]. lia.
Qed.

(** C3, amended. A mark_as_read frame gets past the guard only with a
    truthy sender_id and a truthy text. Such a frame, whose message_id is
    truthy and is bound by the driver to the id of an existing message,
    marks that message read and, the sends succeeding, delivers the
    message_read event with the updated message to every entry of the
    conversation's list; if the id is that of no message, the submitting
    connection is sent an error frame, nothing is broadcast, and the loop
    goes on. *)
Theorem mark_as_read_broadcasts ws c is_group fields w i :
  eq_str (dict_get "action" fields) "mark_as_read" = true ->
  truthy (dict_get "sender_id" fields) = true ->
  truthy (dict_get "text" fields) = true ->
  truthy (dict_get "message_id" fields) = true ->
  sql_int (dict_get "message_id" fields) = Some i ->
  (forall m,
     first_by_id i (messages (db w)) = Some m ->
     Forall (fun x => x ∉ gone w) (members w c) ->
     handle_frame ws c is_group (Decodes (JObj fields)) w =
       (Ok tt,
        with_wire (fun t => t ++ deliveries (members w c)
                                   (message_frame (set_read m) "message_read"))
          (with_db (commit_read i) w))) /\
  (first_by_id i (messages (db w)) = None ->
   ws ∉ gone w ->
   handle_frame ws c is_group (Decodes (JObj fields)) w =
     (Ok tt, with_wire (fun t => t ++ [Sent ws (error_frame "Сообщение не найдено")]) w)).
Proof.
  intros Ha Hs Ht Hm Hbind.
  apply eq_str_true in Ha.
  split.
  - intros m Hfind Hlive. run. rewrite Hs, Ht, Ha. simpl. rewrite Hm, Hbind. simpl.
    rewrite (sql_int_in_int32 _ _ Hbind). simpl.
    rewrite Hfind. simpl. rewrite (first_by_id_id _ _ _ Hfind).
    by rewrite (broadcast_live (with_db (commit_read i) w)).
  - intros Hfind Hlive. run. rewrite Hs, Ht, Ha. simpl. rewrite Hm, Hbind. simpl.
    rewrite (sql_int_in_int32 _ _ Hbind). simpl.
    rewrite Hfind. by rewrite send_text_live.
Qed.

(* --------------------------------------------------------------------- *)
(** ** What a frame can do to the database *)
(* --------------------------------------------------------------------- *)

#[local] Arguments fingerprint : simpl never.

Lemma db_stable_ret {A} (a : A) : db_stable (ret a).
Proof. done. Qed.

Lemma db_stable_raise {A} e : db_stable (@raise A e).
Proof. done. Qed.

Lemma db_stable_bind {A B} (m : M A) (k : A -> M B) :
  db_stable m -> (forall a, db_stable (k a)) -> db_stable (bind m k).
Proof.
  intros Hm Hk w. unfold bind. specialize (Hm w).
  destruct (m w) as [[a | e] w']; simpl in *; [| done]. by rewrite Hk.
Qed.

Lemma db_stable_try_except {A} (m : M A) h :
  db_stable m -> (forall e, db_stable (h e)) -> db_stable (try_except m h).
Proof.
  intros Hm Hh w. unfold try_except. specialize (Hm w).
  destruct (m w) as [[a | e] w']; simpl in *; [done |]. by rewrite Hh.
Qed.

Lemma db_stable_send_text ws payload : db_stable (send_text ws payload).
Proof. intros w. unfold send_text. by destruct (decide _). Qed.

Lemma db_stable_logger_error e : db_stable (logger_error e).
Proof. done. Qed.

Lemma db_stable_send_each l message : db_stable (send_each l message).
Proof.
  induction l; simpl; [apply db_stable_ret |].
  apply db_stable_bind; [apply db_stable_send_text | done].
Qed.

Lemma db_stable_broadcast c message : db_stable (broadcast c message).
Proof.
  intros w. unfold broadcast, bind, get_world.
  destruct (active_connections w !! c); [apply db_stable_send_each | done].
Qed.

Lemma db_stable_except_inner ws e : db_stable (except_inner ws e).
Proof.
  destruct e; simpl; try apply db_stable_raise;
    (apply db_stable_bind; [apply db_stable_logger_error |];
     intros; apply db_stable_send_text).
Qed.

Lemma db_stable_except_outer ws e : db_stable (except_outer ws e).
Proof.
  destruct e; simpl; try apply db_stable_send_text;
    (apply db_stable_bind; [apply db_stable_logger_error |];
     intros; apply db_stable_send_text).
Qed.

Lemma db_stable_connect ws c : db_stable (connect ws c).
Proof.
  intros w. rewrite connect_eq. destruct (answered ws (wire w)); [done |].
  by destruct (decide _).
Qed.

Lemma db_stable_disconnect ws c : db_stable (disconnect ws c).
Proof.
  intros w. unfold disconnect, bind, get_world.
  destruct (active_connections w !! c); [| done].
  by destruct (list_remove ws l).
Qed.

(** Past the guard, the database after the frame is the database after
    the dispatch: the [except] clauses do not touch it. *)
Lemma handle_frame_db_dispatch ws c is_group fields w :
  truthy (dict_get "sender_id" fields) = true ->
  truthy (dict_get "text" fields) = true ->
  db (handle_frame ws c is_group (Decodes (JObj fields)) w).2 =
  db (dispatch ws c is_group (JObj fields) (dict_get "sender_id" fields)
        (dict_get "text" fields) (dict_get "action" fields) w).2.
Proof.
  intros Hs Ht. unfold handle_frame. unfold bind at 1. simpl.
  unfold try_except at 1. unfold bind. simpl. rewrite Hs, Ht. simpl.
  unfold try_except.
  destruct (dispatch _ _ _ _ _ _ _ w) as [[[] | e] w1]; simpl; [done |].
  pose proof (db_stable_except_inner ws e w1) as H1.
  destruct (except_inner ws e w1) as [[[] | e2] w2]; simpl in *; [done |].
  by rewrite db_stable_except_outer.
Qed.

Lemma handle_frame_db_guard ws c is_group fields w :
  truthy (dict_get "sender_id" fields) && truthy (dict_get "text" fields) = false ->
  db (handle_frame ws c is_group (Decodes (JObj fields)) w).2 = db w.
Proof.
  intros H. unfold handle_frame. unfold bind at 1. simpl.
  unfold try_except at 1. unfold bind. simpl.
  assert (negb (truthy (dict_get "sender_id" fields))
          || negb (truthy (dict_get "text" fields)) = true) as ->.
  { by rewrite <- negb_andb, H. }
  pose proof (db_stable_send_text ws (error_frame "Неверный формат сообщения") w) as H1.
  destruct (send_text _ _ w) as [[[] | e] w1]; simpl in *; [done |].
  by rewrite db_stable_except_outer.
Qed.

(* --------------------------------------------------------------------- *)
(** ** Stored triples and consistency *)
(* --------------------------------------------------------------------- *)

Lemma count_triple_app c s t ms m :
  count_triple c s t (ms ++ [m]) =
  (count_triple c s t ms + if same_triple c s t m then 1 else 0)%nat.
Proof.
  unfold count_triple. rewrite List.filter_app, length_app. simpl.
  by destruct (same_triple c s t m).
Qed.

Lemma same_triple_set_read c s t m : same_triple c s t (set_read m) = same_triple c s t m.
Proof. done. Qed.

Lemma count_triple_update_read c s t i ms :
  count_triple c s t (update_read i ms) = count_triple c s t ms.
Proof.
  unfold count_triple, update_read. induction ms as [| m ms IH]; simpl; [done |].
  destruct (Message.id m =? i); rewrite ?same_triple_set_read;
    destruct (same_triple c s t m); simpl; by rewrite IH.
Qed.

Lemma map_hash_update_read i ms :
  map Message.message_hash (update_read i ms) = map Message.message_hash ms.
Proof.
  unfold update_read. induction ms as [| m ms IH]; simpl; [done |].
  rewrite IH. by destruct (Message.id m =? i).
Qed.

Lemma same_triple_true c s t m :
  same_triple c s t m = true <->
  Message.chat_id m = c /\ Message.sender_id m = s /\ Message.text m = t.
Proof.
  unfold same_triple. rewrite !andb_true_iff, !Z.eqb_eq, String.eqb_eq. tauto.
Qed.

Lemma count_triple_pos c s t ms :
  (0 < count_triple c s t ms)%nat <-> exists m, m ∈ ms /\ same_triple c s t m = true.
Proof.
  unfold count_triple. split.
  - intros H. destruct (List.filter _ ms) as [| m l] eqn:E; simpl in H; [lia |].
    exists m. rewrite list_elem_of_In. apply filter_In. rewrite E. by left.
  - intros (m & Hin & Hm). rewrite list_elem_of_In in Hin.
    assert (H : In m (List.filter (same_triple c s t) ms)) by (by apply filter_In).
    destruct (List.filter _ ms); simpl in *; [done | lia].
Qed.

Lemma first_by_hash_None h ms :
  first_by_hash h ms = None <-> h ∉ map Message.message_hash ms.
Proof.
  unfold first_by_hash. induction ms as [| m ms IH]; simpl.
  - split; [intros _; apply not_elem_of_nil | done].
  - rewrite not_elem_of_cons, <- IH.
    destruct (String.eqb_spec (Message.message_hash m) h) as [E | E].
    + split; [done | intros [? _]; congruence].
    + split; [intros H; split; [congruence | done] | by intros [_ ?]].
Qed.

(** Under consistency a stored triple is found by its fingerprint. *)
Lemma stored_triple_found d c s t :
  db_consistent d ->
  (0 < count_triple c s t (messages d))%nat ->
  is_Some (first_by_hash (fingerprint c s t) (messages d)).
Proof.
  intros [Hfp _] Hpos. apply count_triple_pos in Hpos as (m & Hin & Hm).
  apply same_triple_true in Hm as (<- & <- & <-).
  destruct (first_by_hash _ _) eqn:E; [done |].
  apply first_by_hash_None in E. destruct E.
  rewrite Forall_forall in Hfp. rewrite <- (Hfp m Hin).
  by apply list_elem_of_fmap_2.
Qed.

(** Under consistency a triple is stored at most once. *)
Lemma count_triple_le_1 d c s t :
  db_consistent d -> (count_triple c s t (messages d) <= 1)%nat.
Proof.
  intros [Hfp Hnd]. induction (messages d) as [| m ms IH];
    [unfold count_triple; simpl; lia |].
  apply Forall_cons in Hfp as [Hm Hfp]. simpl in Hnd.
  apply NoDup_cons in Hnd as [Hnotin Hnd].
  specialize (IH Hfp Hnd). unfold count_triple in *. simpl.
  destruct (same_triple c s t m) eqn:E; [| done]. simpl.
  destruct (List.filter _ ms) as [| m' l] eqn:F; [done |]. exfalso.
  assert (Hin : In m' (List.filter (same_triple c s t) ms)) by (rewrite F; by left).
  apply filter_In in Hin as [Hin Hm'].
  apply same_triple_true in E as (E1 & E2 & E3).
  apply same_triple_true in Hm' as (<- & <- & <-).
  apply Hnotin. rewrite Hm, E1, E2, E3.
  rewrite Forall_forall in Hfp. rewrite <- (Hfp m'); [| by apply list_elem_of_In].
  apply list_elem_of_fmap_2. by apply list_elem_of_In.
Qed.

Lemma db_evolves_refl d : db_evolves d d.
Proof. unfold db_evolves. repeat apply conj; auto. Qed.

Lemma db_evolves_trans d1 d2 d3 : db_evolves d1 d2 -> db_evolves d2 d3 -> db_evolves d1 d3.
Proof.
  intros (Hc & Hg & Hi & Ht) (Hc' & Hg' & Hi' & Ht').
  unfold db_evolves. repeat apply conj; auto; by etrans.
Qed.

Lemma db_evolves_insert d m :
  Message.message_hash m =
    fingerprint (Message.chat_id m) (Message.sender_id m) (Message.text m) ->
  first_by_hash (Message.message_hash m) (messages d) = None ->
  db_evolves d (mk_database (users d) (chats d) (groups d) (messages d ++ [m])
                  (message_seq d + 1)).
Proof.
  intros Hm Hnew. unfold db_evolves. repeat apply conj; simpl; try done.
  - intros [Hfp Hnd]. split; simpl.
    + apply Forall_app. split; [done | by constructor].
    + rewrite map_app. apply NoDup_app. split; [done |]. split.
      * intros h Hh Hin. simpl in Hin. apply list_elem_of_singleton in Hin as ->.
        by apply first_by_hash_None in Hnew.
      * simpl. apply NoDup_singleton.
  - intros c s t. rewrite count_triple_app. lia.
Qed.

Lemma db_evolves_commit_read d i : db_evolves d (commit_read i d).
Proof.
  unfold db_evolves. repeat apply conj; simpl; try done.
  - intros [Hfp Hnd]. split; simpl.
    + unfold update_read. rewrite Forall_map.
      eapply Forall_impl; [exact Hfp |]. intros m Hm. simpl.
      by destruct (Message.id m =? i).
    + by rewrite map_hash_update_read.
  - intros c s t. by rewrite count_triple_update_read.
Qed.

Lemma evolving_stable {A} (m : M A) : db_stable m -> evolving m.
Proof. intros H w. rewrite H. apply db_evolves_refl. Qed.

Lemma evolving_bind {A B} (m : M A) (k : A -> M B) :
  evolving m -> (forall a, evolving (k a)) -> evolving (bind m k).
Proof.
  intros Hm Hk w. unfold bind. specialize (Hm w).
  destruct (m w) as [[a | e] w']; simpl in *; [| done].
  eapply db_evolves_trans; [exact Hm | apply Hk].
Qed.

Lemma evolving_try_except {A} (m : M A) h :
  evolving m -> (forall e, evolving (h e)) -> evolving (try_except m h).
Proof.
  intros Hm Hh w. unfold try_except. specialize (Hm w).
  destruct (m w) as [[a | e] w']; simpl in *; [done |].
  eapply db_evolves_trans; [exact Hm | apply Hh].
Qed.

(** A refused insert costs an id and nothing else. *)
Lemma db_evolves_skip_id d : db_evolves d (skip_id d).
Proof. unfold db_evolves. repeat apply conj; simpl; done. Qed.

Lemma evolving_create_message message : evolving (create_message message).
Proof.
  intros w. unfold create_message, bind, get_world, new_HTTPException, raise,
    insert_message. simpl.
  destruct (first_by_hash _ (messages (db w))) eqn:E; simpl;
    [apply db_evolves_refl |].
  destruct (fits_columns _ _ _ _); simpl; [| apply db_evolves_refl].
  destruct (decide _) as [(_ & _ & Hnew) |]; simpl; [| apply db_evolves_skip_id].
  by apply db_evolves_insert.
Qed.

Lemma evolving_mark_message_as_read i : evolving (mark_message_as_read i).
Proof.
  intros w. unfold mark_message_as_read, bind, get_world, modify, ret, raise.
  destruct (in_int32 i); simpl; [| apply db_evolves_refl].
  destruct (first_by_id i (messages (db w))); simpl;
    [apply db_evolves_commit_read | apply db_evolves_refl].
Qed.

Lemma evolving_dispatch ws c is_group message_data sender_id text action :
  evolving (dispatch ws c is_group message_data sender_id text action).
Proof.
  unfold dispatch.
  destruct (eq_str action "send_message").
  - apply evolving_bind.
    + apply evolving_stable. destruct is_group; apply db_stable_bind;
        try (intros; apply db_stable_ret);
        intros w; unfold db_get; by destruct (sql_int _).
    + intros [chat |]; [| apply evolving_stable, db_stable_send_text].
      apply evolving_bind.
      * apply evolving_stable. unfold new_MessageCreate.
        destruct (pydantic_int _), (pydantic_int sender_id), (pydantic_str text);
          apply db_stable_ret || apply db_stable_raise.
      * intros mc. apply evolving_bind; [apply evolving_create_message |].
        intros m. apply evolving_stable, db_stable_broadcast.
  - destruct (eq_str action "mark_as_read"); [| apply evolving_stable, db_stable_ret].
    apply evolving_bind.
    + apply evolving_stable. unfold get_field.
      destruct message_data; apply db_stable_ret || apply db_stable_raise.
    + intros message_id. destruct (negb (truthy message_id));
        [apply evolving_stable, db_stable_send_text |].
      apply evolving_bind.
      * unfold crud_mark_message_as_read. destruct (sql_int message_id);
          [apply evolving_mark_message_as_read | apply evolving_stable, db_stable_raise].
      * intros [m |]; apply evolving_stable;
          [apply db_stable_broadcast | apply db_stable_send_text].
Qed.

Lemma evolving_handle_frame ws c is_group data :
  evolving (handle_frame ws c is_group data).
Proof.
  unfold handle_frame. apply evolving_try_except;
    [| intros; apply evolving_stable, db_stable_except_outer].
  apply evolving_bind.
  { apply evolving_stable. destruct data; apply db_stable_ret || apply db_stable_raise. }
  intros message_data.
  assert (Hget : forall key, evolving (get_field message_data key)).
  { intros key. apply evolving_stable. unfold get_field.
    destruct message_data; apply db_stable_ret || apply db_stable_raise. }
  apply evolving_bind; [apply Hget |]. intros sender_id.
  apply evolving_bind; [apply Hget |]. intros text.
  apply evolving_bind; [apply Hget |]. intros action.
  destruct (negb (truthy sender_id) || negb (truthy text));
    [apply evolving_stable, db_stable_send_text |].
  apply evolving_try_except; [apply evolving_dispatch |].
  intros; apply evolving_stable, db_stable_except_inner.
Qed.

Lemma core_step_evolves w w' : core_step w w' -> db_evolves (db w) (db w').
Proof.
  intros [ws c is_group data w0 | w0 w1 [ws c w2 | ws c w2] | w0 w1 Hmoves].
  - apply evolving_handle_frame.
  - rewrite db_stable_connect. apply db_evolves_refl.
  - rewrite db_stable_disconnect. apply db_evolves_refl.
  - destruct Hmoves as [_ _ _ Hm Hc Hg]. unfold db_evolves, db_consistent.
    rewrite Hm. auto.
Qed.

Lemma core_steps_evolve w w' : rtc core_step w w' -> db_evolves (db w) (db w').
Proof.
  induction 1 as [| w1 w2 w3 Hstep _ IH]; [apply db_evolves_refl |].
  eapply db_evolves_trans; [by apply core_step_evolves | exact IH].
Qed.

(* --------------------------------------------------------------------- *)
(** ** A send_message and its repetition *)
(* --------------------------------------------------------------------- *)

Lemma not_grown {A} (l : list A) (x : A) : l <> l ++ [x].
Proof. intros E. apply (f_equal length) in E. rewrite length_app in E. simpl in E. lia. Qed.

(** The database after [create_message] and the broadcast of its row. *)
Lemma create_then_broadcast_db c message (w : world) (k : Message.t -> json) m :
  messages (db ((let! row := create_message message in broadcast c (k row)) w).2)
    = messages (db w) ++ [m] ->
  Message.chat_id m = mc_chat_id message /\
  Message.sender_id m = mc_sender_id message /\
  Message.text m = mc_text message.
Proof.
  unfold bind at 1. unfold create_message, bind, get_world, new_HTTPException, raise,
    insert_message. simpl.
  destruct (first_by_hash _ (messages (db w))); simpl;
    [intros E; by apply not_grown in E |].
  destruct (fits_columns _ _ _ _); simpl; [| intros E; by apply not_grown in E].
  destruct (decide _); simpl; [| intros E; by apply not_grown in E].
  rewrite db_stable_broadcast. simpl. intros E.
  apply app_inj_tail in E as [_ <-]. done.
Qed.

(** A send_message frame that stored a row stored its own triple, under
    the chat id the conversation resolves to. *)
Lemma persisted_by_send ws c is_group fields s t w m :
  is_send_message fields s t ->
  messages (db (handle_frame ws c is_group (Decodes (JObj fields)) w).2)
    = messages (db w) ++ [m] ->
  truthy (JInt s) = true /\ truthy (JStr t) = true /\
  persistence_target (db w) c is_group = Some (Message.chat_id m) /\
  Message.sender_id m = s /\ Message.text m = t.
Proof.
  intros (Ha & Hs & Ht) H.
  destruct (truthy (JInt s) && truthy (JStr t)) eqn:G.
  2: { rewrite handle_frame_db_guard in H by (by rewrite Hs, Ht).
       by apply not_grown in H. }
  apply andb_true_iff in G as [Gs Gt].
  rewrite handle_frame_db_dispatch in H by (by rewrite ?Hs, ?Ht).
  rewrite Hs, Ht in H. unfold dispatch in H. rewrite Ha in H.
  split; [done |]. split; [done |].
  unfold persistence_target.
  unfold bind at 1 in H.
  destruct is_group; unfold bind at 1 in H; unfold db_get in H;
    destruct (sql_int (JInt c)) as [i |]; simpl in H;
    try (by apply not_grown in H).
  - destruct (groups (db w) !! i) as [g |]; simpl in H.
    2: { rewrite db_stable_send_text in H. by apply not_grown in H. }
    unfold new_MessageCreate in H. unfold bind at 1 in H.
    destruct (Group.chat_id g) as [c' |].
    + rewrite pydantic_int_exact, pydantic_int_exact, pydantic_str_exact in H.
      simpl in H. apply create_then_broadcast_db in H as (-> & -> & ->). done.
    + rewrite pydantic_int_null in H. simpl in H. by apply not_grown in H.
  - destruct (chats (db w) !! i) as [ch |]; simpl in H.
    2: { rewrite db_stable_send_text in H. by apply not_grown in H. }
    unfold new_MessageCreate in H. unfold bind at 1 in H.
    rewrite pydantic_int_exact, pydantic_int_exact, pydantic_str_exact in H.
    simpl in H. apply create_then_broadcast_db in H as (-> & -> & ->). done.
Qed.

(** A send_message frame whose triple is stored is refused by
    [create_message]; the [TypeError] its [raise] statement ends in is
    caught by the inner [except Exception]. *)
Lemma repeated_send_rejected ws c is_group fields s t w c' :
  is_send_message fields s t ->
  truthy (JInt s) = true ->
  truthy (JStr t) = true ->
  persistence_target (db w) c is_group = Some c' ->
  db_consistent (db w) ->
  (0 < count_triple c' s t (messages (db w)))%nat ->
  ws ∉ gone w ->
  handle_frame ws c is_group (Decodes (JObj fields)) w =
    (Ok tt,
     with_log (fun l => l ++ [TypeError "HTTPException() takes no keyword arguments"])
       (with_wire (fun tr => tr ++ [Sent ws (error_frame "Внутренняя ошибка сервера")]) w)).
Proof.
  intros (Ha & Hs & Ht) Gs Gt Htarget Hcons Hstored Hlive.
  destruct (stored_triple_found _ _ _ _ Hcons Hstored) as [m0 Hfound].
  unfold persistence_target in Htarget.
  unfold handle_frame, try_except, bind, json_loads, get_field, ret. simpl.
  rewrite Hs, Ht, Gs, Gt. simpl.
  unfold dispatch. rewrite Ha. unfold bind, db_get, ret.
  destruct is_group; destruct (sql_int (JInt c)) as [i |]; try done; simpl.
  - destruct (groups (db w) !! i) as [g |]; [| done]. simpl. rewrite Htarget.
    unfold new_MessageCreate. rewrite !pydantic_int_exact, pydantic_str_exact.
    unfold create_message, bind, get_world, new_HTTPException, raise, ret. simpl.
    rewrite Hfound. simpl. unfold logger_error, modify, bind. simpl.
    unfold send_text. simpl. by rewrite decide_False.
  - destruct (chats (db w) !! i) as [ch |]; [| done]. simpl.
    injection Htarget as ->.
    unfold new_MessageCreate. rewrite !pydantic_int_exact, pydantic_str_exact.
    unfold create_message, bind, get_world, new_HTTPException, raise, ret. simpl.
    rewrite Hfound. simpl. unfold logger_error, modify, bind. simpl.
    unfold send_text. simpl. by rewrite decide_False.
Qed.

Lemma persistence_target_evolves d d' c is_group c' :
  db_evolves d d' ->
  persistence_target d c is_group = Some c' ->
  persistence_target d' c is_group = Some c'.
Proof.
  intros (Hc & Hg & _). unfold persistence_target.
  destruct (sql_int (JInt c)) as [i |]; [| done]. destruct is_group.
  - destruct (groups d !! i) as [g |] eqn:E; [| done].
    by rewrite (lookup_weaken _ _ _ _ E Hg).
  - destruct (chats d !! i) as [ch |] eqn:E; [| done].
    by rewrite (lookup_weaken _ _ _ _ E Hc).
Qed.

(** Consistency holds from an empty table of messages on. *)
Lemma core_steps_consistent w0 w :
  messages (db w0) = [] -> rtc core_step w0 w -> db_consistent (db w).
Proof.
  intros Hinit Hsteps. apply (core_steps_evolve _ _ Hsteps).
  unfold db_consistent. rewrite Hinit. split; [constructor | apply NoDup_nil_2].
Qed.

(** C1. Once a send_message frame with sender [s] and text [t] has
    stored its message [m] for a conversation, then in every later state
    of the core the triple of [m] is stored exactly once, and a
    send_message frame with the same sender and text, submitted on any
    live connection of that conversation, stores nothing, is answered
    with one error frame on the submitting connection, and is broadcast
    to no one. *)
Theorem duplicate_send_rejected w0 w2 ws1 ws2 c is_group f1 f2 s t m :
  db_consistent (db w0) ->
  is_send_message f1 s t ->
  is_send_message f2 s t ->
  messages (db (handle_frame ws1 c is_group (Decodes (JObj f1)) w0).2)
    = messages (db w0) ++ [m] ->
  rtc core_step (handle_frame ws1 c is_group (Decodes (JObj f1)) w0).2 w2 ->
  ws2 ∉ gone w2 ->
  (Message.sender_id m = s /\ Message.text m = t) /\
  count_triple (Message.chat_id m) s t (messages (db w2)) = 1%nat /\
  handle_frame ws2 c is_group (Decodes (JObj f2)) w2 =
    (Ok tt,
     with_log (fun l => l ++ [TypeError "HTTPException() takes no keyword arguments"])
       (with_wire (fun tr => tr ++ [Sent ws2 (error_frame "Внутренняя ошибка сервера")])
          w2)).
Proof.
  intros Hcons Hf1 Hf2 Hstored Hlater Hlive.
  destruct (persisted_by_send _ _ _ _ _ _ _ _ Hf1 Hstored)
    as (Gs & Gt & Htarget & Hsender & Htext).
  pose proof (evolving_handle_frame ws1 c is_group (Decodes (JObj f1)) w0) as Hstep.
  pose proof (core_steps_evolve _ _ Hlater) as Hsteps.
  pose proof (db_evolves_trans _ _ _ Hstep Hsteps) as Hall.
  assert (Hcons2 : db_consistent (db w2)) by (by apply Hall).
  assert (Hpos : (0 < count_triple (Message.chat_id m) s t (messages (db w2)))%nat).
  { apply Hsteps. rewrite Hstored, count_triple_app.
    assert (same_triple (Message.chat_id m) s t m = true) as ->
      by (by apply same_triple_true).
    lia. }
  split; [done |]. split.
  - pose proof (count_triple_le_1 _ (Message.chat_id m) s t Hcons2). lia.
  - eapply repeated_send_rejected; eauto.
    eapply persistence_target_evolves; eauto.
Qed.

(* ===================================================================== *)
(** * The route *)
(* ===================================================================== *)

Lemma missing_false v : missing v = false <-> exists s, v = Some s /\ s <> EmptyString.
Proof.
  destruct v as [s |]; simpl.
  - rewrite String.eqb_neq. split; [intros H; by exists s | intros (? & [= <-] & ?); done].
  - split; [done | intros (? & ? & _); done].
Qed.

(** C10. With a valid token and a chat_id that [int] reads, whatever
    group_id is, the route closes nothing, accepts, and takes the chat_id
    branch: it calls [websocket_endpoint] with the chat id and
    [is_group=False]. The call passes [user_email], which
    [websocket_endpoint] does not take: it raises TypeError, and the
    connection is registered nowhere. (This on a connection whose
    handshake is open, as it is when the route is entered; were it
    answered before, [accept] would raise RuntimeError and the route
    would end there.) *)
Theorem route_with_chat_and_group ws query inbound w token payload chat_id i :
  query_get "token" query = Some token ->
  token <> EmptyString ->
  jwt_decode token = Some payload ->
  dict_get "sub" payload <> JNull ->
  query_get "chat_id" query = Some chat_id ->
  chat_id <> EmptyString ->
  int_of_str chat_id = Some i ->
  ws ∉ gone w ->
  (answered ws (wire w) = false ->
   websocket_route ws query inbound w =
     call_websocket_endpoint ws i false ["user_email"%string] inbound
       (with_wire (fun tr => tr ++ [Accepted ws]) w)
   /\ websocket_route ws query inbound w =
      (Raise (TypeError
                "websocket_endpoint() got an unexpected keyword argument 'user_email'"),
       with_wire (fun tr => tr ++ [Accepted ws]) w))
  /\ (answered ws (wire w) = true ->
      websocket_route ws query inbound w = (Raise RuntimeError, w)).
Proof.
  intros Htoken Hne Hjwt Hsub Hchat Hchat_ne Hint Hlive.
  assert (E : websocket_route ws query inbound w =
              if answered ws (wire w) then (Raise RuntimeError, w)
              else call_websocket_endpoint ws i false ["user_email"%string] inbound
                     (with_wire (fun tr => tr ++ [Accepted ws]) w)).
  { unfold websocket_route. rewrite Htoken, Hchat.
    assert (missing (Some token) = false) as -> by (apply missing_false; eauto).
    assert (missing (Some chat_id) = false) as -> by (apply missing_false; eauto).
    simpl. unfold bind at 1. unfold try_except at 1. unfold bind at 1.
    unfold get_current_user_websocket, try_except. rewrite Hjwt.
    destruct (dict_get "sub" payload) eqn:Es; try done;
      simpl; unfold bind at 1; unfold accept;
      (destruct (answered ws (wire w)); [reflexivity |]);
      rewrite decide_False by done;
      unfold bind at 1; unfold py_int; rewrite Hint; reflexivity. }
  split.
  - intros Hopen. rewrite Hopen in E. split; [exact E |]. rewrite E. reflexivity.
  - intros Hdone. by rewrite Hdone in E.
Qed.

(* ===================================================================== *)
(** * What every frame respects *)
(* ===================================================================== *)

Section Respects.
Context (R : world -> world -> Prop) `{!PreOrder R}.

Lemma respects_ret {A} (a : A) : respects R (ret a).
Proof. intros w. simpl. reflexivity. Qed.

Lemma respects_raise {A} e : respects R (@raise A e).
Proof. intros w. simpl. reflexivity. Qed.

Lemma respects_bind {A B} (m : M A) (k : A -> M B) :
  respects R m -> (forall a, respects R (k a)) -> respects R (bind m k).
Proof.
  intros Hm Hk w. unfold bind. specialize (Hm w).
  destruct (m w) as [[a | e] w']; simpl in *; [| done].
  etrans; [exact Hm | apply Hk].
Qed.

Lemma respects_try_except {A} (m : M A) h :
  respects R m -> (forall e, respects R (h e)) -> respects R (try_except m h).
Proof.
  intros Hm Hh w. unfold try_except. specialize (Hm w).
  destruct (m w) as [[a | e] w']; simpl in *; [done |].
  etrans; [exact Hm | apply Hh].
Qed.

Lemma respects_get_field message_data key : respects R (get_field message_data key).
Proof. destruct message_data; apply respects_ret || apply respects_raise. Qed.

Lemma respects_db_get {A} (table : database -> gmap Z A) key : respects R (db_get table key).
Proof. intros w. unfold db_get. destruct (sql_int _); simpl; reflexivity. Qed.

Lemma respects_new_MessageCreate chat_id sender_id text :
  respects R (new_MessageCreate chat_id sender_id text).
Proof.
  unfold new_MessageCreate.
  destruct (pydantic_int chat_id), (pydantic_int sender_id), (pydantic_str text);
    apply respects_ret || apply respects_raise.
Qed.

(** The frame handler is made of five effects; a preorder that each of
    them respects is respected by the handling of any frame. *)
Context (ws : conn) (c : Z).
Hypothesis R_error : forall detail, respects R (send_text ws (error_frame detail)).
Hypothesis R_broadcast :
  forall m action, respects R (broadcast c (message_frame m action)).
Hypothesis R_log : forall e, respects R (logger_error e).
Hypothesis R_create : forall message, respects R (create_message message).
Hypothesis R_mark : forall i, respects R (mark_message_as_read i).

Lemma respects_except_inner e : respects R (except_inner ws e).
Proof.
  destruct e; simpl; try apply respects_raise;
    (apply respects_bind; [apply R_log | intros; apply R_error]).
Qed.

Lemma respects_except_outer e : respects R (except_outer ws e).
Proof.
  destruct e; simpl; try apply R_error;
    (apply respects_bind; [apply R_log | intros; apply R_error]).
Qed.

Lemma respects_dispatch is_group message_data sender_id text action :
  respects R (dispatch ws c is_group message_data sender_id text action).
Proof.
  unfold dispatch. destruct (eq_str action "send_message").
  - apply respects_bind.
    + destruct is_group; (apply respects_bind; [apply respects_db_get |]);
        intros; apply respects_ret.
    + intros [chat |]; [| apply R_error].
      apply respects_bind; [apply respects_new_MessageCreate |]. intros message.
      apply respects_bind; [apply R_create |]. intros row. apply R_broadcast.
  - destruct (eq_str action "mark_as_read"); [| apply respects_ret].
    apply respects_bind; [apply respects_get_field |]. intros message_id.
    destruct (negb (truthy message_id)); [apply R_error |].
    apply respects_bind.
    + unfold crud_mark_message_as_read.
      destruct (sql_int message_id); [apply R_mark | apply respects_raise].
    + intros [row |]; [apply R_broadcast | apply R_error].
Qed.

Lemma respects_handle_frame is_group data :
  respects R (handle_frame ws c is_group data).
Proof.
  unfold handle_frame.
  apply respects_try_except; [| apply respects_except_outer].
  apply respects_bind.
  { destruct data; apply respects_ret || apply respects_raise. }
  intros message_data.
  apply respects_bind; [apply respects_get_field |]. intros sender_id.
  apply respects_bind; [apply respects_get_field |]. intros text.
  apply respects_bind; [apply respects_get_field |]. intros action.
  destruct (negb (truthy sender_id) || negb (truthy text)); [apply R_error |].
  apply respects_try_except; [apply respects_dispatch | apply respects_except_inner].
Qed.

End Respects.

(* --------------------------------------------------------------------- *)
(** ** The registry, the peers and the clock *)
(* --------------------------------------------------------------------- *)

#[local] Instance same_surroundings_preorder : PreOrder same_surroundings.
Proof.
  split.
  - by intros w.
  - intros w1 w2 w3 (? & ? & ?) (? & ? & ?). unfold same_surroundings.
    repeat apply conj; congruence.
Qed.

Lemma surroundings_send_text ws payload : respects same_surroundings (send_text ws payload).
Proof. intros w. unfold send_text. by destruct (decide _). Qed.

Lemma surroundings_send_each l message : respects same_surroundings (send_each l message).
Proof.
  induction l; simpl; [apply respects_ret; apply _ |].
  apply respects_bind; [apply _ | apply surroundings_send_text | done].
Qed.

Lemma surroundings_broadcast c message : respects same_surroundings (broadcast c message).
Proof.
  intros w. unfold broadcast, bind, get_world.
  destruct (active_connections w !! c); [apply surroundings_send_each | done].
Qed.

Lemma surroundings_create_message message :
  respects same_surroundings (create_message message).
Proof.
  intros w. unfold create_message, bind, get_world, new_HTTPException, raise,
    insert_message. simpl.
  destruct (first_by_hash _ _); [done |].
  destruct (fits_columns _ _ _ _); [| done]. by destruct (decide _).
Qed.

Lemma surroundings_mark_message_as_read i :
  respects same_surroundings (mark_message_as_read i).
Proof.
  intros w. unfold mark_message_as_read, bind, get_world, modify, ret, raise.
  destruct (in_int32 i); [| done]. simpl.
  by destruct (first_by_id _ _).
Qed.

Lemma surroundings_handle_frame ws c is_group data :
  respects same_surroundings (handle_frame ws c is_group data).
Proof.
  apply (respects_handle_frame same_surroundings ws c); intros.
  - apply surroundings_send_text.
  - apply surroundings_broadcast.
  - done.
  - apply surroundings_create_message.
  - apply surroundings_mark_message_as_read.
Qed.

(** X1. Handling a frame, whatever it is and however it ends, leaves the
    registry of connections as it was (and with it the peers and the
    clock): no frame registers or unregisters anyone. *)
Theorem frame_leaves_registry ws c is_group data w :
  active_connections (handle_frame ws c is_group data w).2 = active_connections w
  /\ gone (handle_frame ws c is_group data w).2 = gone w
  /\ utcnow (handle_frame ws c is_group data w).2 = utcnow w.
Proof. apply surroundings_handle_frame. Qed.

Lemma except_outer_live ws e w :
  ws ∉ gone w -> (except_outer ws e w).1 = Ok tt.
Proof.
  intros H. destruct e; simpl; unfold bind, logger_error, modify; simpl;
    by rewrite send_text_live.
Qed.

Lemma handle_frame_live ws c is_group data w :
  ws ∉ gone w ->
  (handle_frame ws c is_group data w).1 = Ok tt.
Proof.
  intros Hlive. unfold handle_frame.
  set (body := bind (json_loads data) _).
  assert (Hbody : respects same_surroundings body).
  { subst body. apply respects_bind; [apply _ | |].
    { destruct data; apply respects_ret || apply respects_raise; apply _. }
    intros message_data.
    apply respects_bind; [apply _ | apply respects_get_field; apply _ |].
    intros sender_id.
    apply respects_bind; [apply _ | apply respects_get_field; apply _ |].
    intros text.
    apply respects_bind; [apply _ | apply respects_get_field; apply _ |].
    intros action.
    destruct (negb (truthy sender_id) || negb (truthy text));
      [apply surroundings_send_text |].
    apply respects_try_except; [apply _ | |].
    - apply respects_dispatch; try apply _; intros;
        first [apply surroundings_send_text | apply surroundings_broadcast
              | apply surroundings_create_message
              | apply surroundings_mark_message_as_read].
    - apply respects_except_inner; try apply _; intros;
        [apply surroundings_send_text | done]. }
  unfold try_except. specialize (Hbody w).
  destruct (body w) as [[[] | e] w1]; simpl in *; [done |].
  apply except_outer_live. destruct Hbody as (_ & -> & _). done.
Qed.

(** X2. While the peer of the submitting connection is there, handling a
    frame never raises: whatever the frame holds and whatever fails on
    the way (a refused insert, a peer gone in the middle of a broadcast),
    the loop goes on to the next frame. *)
Theorem frame_never_raises ws c is_group data w :
  ws ∉ gone w ->
  (handle_frame ws c is_group data w).1 = Ok tt.
Proof. apply handle_frame_live. Qed.

(* --------------------------------------------------------------------- *)
(** ** Who is sent what *)
(* --------------------------------------------------------------------- *)

Section Wire.
Context (ws : conn) (c : Z).

#[local] Instance wire_kept_preorder : PreOrder (wire_kept ws c).
Proof.
  split.
  - intros w. split; [done |]. exists []. by rewrite app_nil_r.
  - intros w1 w2 w3 (Hac & ev & Hw & Hev) (Hac' & ev' & Hw' & Hev').
    split; [congruence |]. exists (ev ++ ev'). split.
    + by rewrite Hw', Hw, app_assoc.
    + apply Forall_app. split; [done |]. by rewrite <- Hac.
Qed.

Lemma wire_kept_quiet {A} (m : M A) :
  (forall w, active_connections (m w).2 = active_connections w) ->
  (forall w, wire (m w).2 = wire w) ->
  respects (wire_kept ws c) m.
Proof.
  intros Hac Hwire w. split; [done |]. exists []. by rewrite app_nil_r.
Qed.

Lemma wire_kept_error detail : respects (wire_kept ws c) (send_text ws (error_frame detail)).
Proof.
  intros w. unfold send_text. destruct (decide _); simpl; [reflexivity |].
  split; [done |]. eexists. split; [reflexivity |].
  constructor; [| constructor]. left. eauto.
Qed.

Lemma live_prefix_subseteq gone l : live_prefix gone l ⊆ l.
Proof.
  induction l as [| x l IH]; simpl; [done |].
  destruct (decide _); [apply list_subseteq_nil |]. by apply list_subseteq_skip.
Qed.

Lemma wire_kept_broadcast m action :
  respects (wire_kept ws c) (broadcast c (message_frame m action)).
Proof.
  intros w. rewrite broadcast_eq. simpl. split; [done |].
  eexists. split; [reflexivity |].
  unfold deliveries. rewrite Forall_map. apply Forall_forall. intros x Hx.
  right. exists x, m, action. split; [done |].
  by apply (live_prefix_subseteq (gone w) (members w c)).
Qed.

Lemma wire_kept_create_message message : respects (wire_kept ws c) (create_message message).
Proof.
  apply wire_kept_quiet; intros w; unfold create_message, bind, get_world,
    new_HTTPException, raise, insert_message; simpl;
    (destruct (first_by_hash _ _); [done |]);
    (destruct (fits_columns _ _ _ _); [| done]); by destruct (decide _).
Qed.

Lemma wire_kept_mark_message_as_read i :
  respects (wire_kept ws c) (mark_message_as_read i).
Proof.
  apply wire_kept_quiet; intros w; unfold mark_message_as_read, bind, get_world,
    modify, ret, raise; (destruct (in_int32 i); [| done]); simpl;
    by destruct (first_by_id _ _).
Qed.

Lemma wire_kept_handle_frame is_group data :
  respects (wire_kept ws c) (handle_frame ws c is_group data).
Proof.
  apply (respects_handle_frame (wire_kept ws c) ws c wire_kept_error
           wire_kept_broadcast
           (fun e => wire_kept_quiet (logger_error e) (fun _ => eq_refl) (fun _ => eq_refl))
           wire_kept_create_message wire_kept_mark_message_as_read).
Qed.

(** X3. Whatever the frame, all it puts on the wire is error frames for
    the connection that submitted it and message events for connections
    registered under the conversation's id: no error reaches another
    connection, and no connection of another conversation is sent
    anything. *)
Theorem frame_sends_to_its_conversation_only is_group data w :
  exists events,
    wire (handle_frame ws c is_group data w).2 = wire w ++ events /\
    Forall (fun ev =>
              (exists detail, ev = Sent ws (error_frame detail)) \/
              (exists x m action, ev = Sent x (message_frame m action) /\ x ∈ members w c))
           events.
Proof.
  destruct (wire_kept_handle_frame is_group data w) as (_ & events & Hw & Hev).
  exists events. split; [done |]. exact Hev.
Qed.

End Wire.

(* --------------------------------------------------------------------- *)
(** ** What happens to the stored messages *)
(* --------------------------------------------------------------------- *)

#[local] Instance ids_kept_preorder : PreOrder ids_kept.
Proof.
  split; [intros w H; exact H | intros w1 w2 w3 H1 H2 H; exact (H2 (H1 H))].
Qed.

Lemma ids_kept_stable {A} (m : M A) : db_stable m -> respects ids_kept m.
Proof. intros H w. unfold ids_kept. by rewrite H. Qed.

Lemma map_id_update_read i ms :
  map Message.id (update_read i ms) = map Message.id ms.
Proof.
  unfold update_read. induction ms as [| m ms IH]; simpl; [done |].
  rewrite IH. by destruct (Message.id m =? i).
Qed.

Lemma ids_kept_create_message message : respects ids_kept (create_message message).
Proof.
  intros w [Hle Hnd]. unfold create_message, bind, get_world, new_HTTPException, raise,
    insert_message. simpl.
  destruct (first_by_hash _ _); simpl; [done |].
  destruct (fits_columns _ _ _ _); simpl; [| done].
  destruct (decide _); simpl.
  2: { split; simpl; [| done].
       eapply Forall_impl; [exact Hle |]. simpl. intros; lia. }
  split; simpl.
  - apply Forall_app. split.
    + eapply Forall_impl; [exact Hle |]. simpl. intros; lia.
    + constructor; [simpl; lia | constructor].
  - rewrite map_app. apply NoDup_app. split; [done |]. split.
    + intros i Hi Hin. simpl in Hin. apply list_elem_of_singleton in Hin as ->.
      apply list_elem_of_fmap in Hi as (m & Hm & Hin).
      rewrite Forall_forall in Hle. specialize (Hle m Hin). simpl in Hle. lia.
    + simpl. apply NoDup_singleton.
Qed.

Lemma ids_kept_mark_message_as_read i : respects ids_kept (mark_message_as_read i).
Proof.
  intros w [Hle Hnd]. unfold mark_message_as_read, bind, get_world, modify, ret, raise.
  destruct (in_int32 i); simpl; [| done].
  destruct (first_by_id _ _); simpl; [| done]. split; simpl.
  - unfold update_read. rewrite Forall_map. eapply Forall_impl; [exact Hle |].
    intros m Hm. simpl. by destruct (Message.id m =? _).
  - by rewrite map_id_update_read.
Qed.

(** X4. If the stored messages have distinct ids, all drawn from the
    sequence, they still do after any frame: a new message never takes
    the id of a stored one. *)
Theorem frame_keeps_ids_distinct ws c is_group data w :
  ids_in_sequence (db w) ->
  ids_in_sequence (db (handle_frame ws c is_group data w).2).
Proof.
  apply (respects_handle_frame ids_kept ws c); intros.
  - apply ids_kept_stable, db_stable_send_text.
  - apply ids_kept_stable, db_stable_broadcast.
  - apply ids_kept_stable, db_stable_logger_error.
  - apply ids_kept_create_message.
  - apply ids_kept_mark_message_as_read.
Qed.

Lemma read_at_most_refl ms : Forall2 read_at_most ms ms.
Proof. induction ms; constructor; [by left | done]. Qed.

Lemma read_at_most_trans m1 m2 m3 :
  read_at_most m1 m2 -> read_at_most m2 m3 -> read_at_most m1 m3.
Proof. intros [-> | ->] [-> | ->]; (by left) || (by right). Qed.

#[local] Instance messages_kept_preorder : PreOrder messages_kept.
Proof.
  split.
  - intros w. exists (messages (db w)), []. split; [by rewrite app_nil_r |].
    apply read_at_most_refl.
  - intros w1 w2 w3 (k1 & a1 & E1 & H1) (k2 & a2 & E2 & H2).
    rewrite E1 in H2. apply Forall2_app_inv_l in H2 as (k2a & k2b & Ha & Hb & ->).
    exists k2a, (k2b ++ a2). split; [by rewrite E2, app_assoc |].
    clear E1 E2 Hb. revert k2a Ha. induction H1 as [| m1 m2 l1 l2 Hm _ IH];
      intros k2a Ha; inversion Ha; subst; constructor;
      eauto using read_at_most_trans.
Qed.

Lemma messages_kept_stable {A} (m : M A) : db_stable m -> respects messages_kept m.
Proof.
  intros H w. exists (messages (db w)), []. rewrite H, app_nil_r.
  split; [done | apply read_at_most_refl].
Qed.

Lemma messages_kept_create_message message : respects messages_kept (create_message message).
Proof.
  intros w. unfold create_message, bind, get_world, new_HTTPException, raise,
    insert_message. simpl.
  destruct (first_by_hash _ _); simpl; [reflexivity |].
  destruct (fits_columns _ _ _ _); simpl; [| reflexivity].
  destruct (decide _); simpl.
  2: { exists (messages (db w)), []. split; [by rewrite app_nil_r |].
       apply read_at_most_refl. }
  eexists _, [_]. split; [reflexivity | apply read_at_most_refl].
Qed.

Lemma messages_kept_mark_message_as_read i : respects messages_kept (mark_message_as_read i).
Proof.
  intros w. unfold mark_message_as_read, bind, get_world, modify, ret, raise.
  destruct (in_int32 i); simpl; [| reflexivity].
  destruct (first_by_id _ _) as [m0 |]; simpl; [| reflexivity].
  exists (update_read (Message.id m0) (messages (db w))), []. split; [by rewrite app_nil_r |].
  unfold update_read. induction (messages (db w)) as [| m ms IH]; simpl; constructor;
    [| done]. destruct (Message.id m =? _); [by right | by left].
Qed.

(** X5. No frame deletes, moves or rewrites a stored message: after any
    frame the stored rows are the rows of before, in the same order, each
    either unchanged or with [is_read] set, followed by what the frame
    added. *)
Theorem frame_keeps_messages ws c is_group data w :
  exists kept added,
    messages (db (handle_frame ws c is_group data w).2) = kept ++ added /\
    Forall2 (fun m m' => m' = m \/ m' = set_read m) (messages (db w)) kept.
Proof.
  apply (respects_handle_frame messages_kept ws c); intros.
  - apply messages_kept_stable, db_stable_send_text.
  - apply messages_kept_stable, db_stable_broadcast.
  - apply messages_kept_stable, db_stable_logger_error.
  - apply messages_kept_create_message.
  - apply messages_kept_mark_message_as_read.
Qed.

(* --------------------------------------------------------------------- *)
(** ** Frame by frame *)
(* --------------------------------------------------------------------- *)

Lemma truthy_int s : s <> 0 -> truthy (JInt s) = true.
Proof. intros H. simpl. by destruct (Z.eqb_spec s 0). Qed.

Lemma truthy_str t : t <> EmptyString -> truthy (JStr t) = true.
Proof. intros H. simpl. by destruct (String.eqb_spec t EmptyString). Qed.

(** X6. A send_message frame with a sender that is a user, a non-empty
    text, a conversation that resolves to an existing chat, a triple not
    stored yet and values that fit their columns (32-bit ids, a text
    without U+0000, a sequence that is not exhausted) stores one row
    (next id, unread, the time of the insert, the fingerprint of the
    triple) and, the sends succeeding, delivers the same new_message
    event once to every entry registered under the conversation's id,
    the sender's own included. *)
Theorem send_message_stores_and_broadcasts ws c is_group fields s t w c' :
  is_send_message fields s t ->
  s <> 0 ->
  t <> EmptyString ->
  persistence_target (db w) c is_group = Some c' ->
  fits_columns c' s t (db w) = true ->
  c' ∈ dom (chats (db w)) ->
  s ∈ users (db w) ->
  first_by_hash (fingerprint c' s t) (messages (db w)) = None ->
  Forall (fun x => x ∉ gone w) (members w c) ->
  handle_frame ws c is_group (Decodes (JObj fields)) w =
    (Ok tt,
     with_wire (fun tr => tr ++ deliveries (members w c)
                                  (message_frame (new_row w c' s t) "new_message"))
       (with_db (store_row (new_row w c' s t)) w)).
Proof.
  intros (Ha & Hs & Ht) Hs0 Ht0 Htarget Hfits Hchat Huser Hnew Hlive.
  unfold persistence_target in Htarget.
  unfold handle_frame, try_except, bind, json_loads, get_field, ret. simpl.
  rewrite Hs, Ht, (truthy_int _ Hs0), (truthy_str _ Ht0). simpl.
  unfold dispatch. rewrite Ha. unfold bind, db_get, ret.
  destruct is_group; destruct (sql_int (JInt c)) as [i |]; try done; simpl.
  - destruct (groups (db w) !! i) as [g |]; [| done]. simpl. rewrite Htarget.
    unfold new_MessageCreate. rewrite !pydantic_int_exact, pydantic_str_exact.
    unfold create_message, bind, get_world, insert_message, ret. simpl.
    rewrite Hnew, Hfits. rewrite decide_True by done. simpl.
    rewrite broadcast_live by done. done.
  - destruct (chats (db w) !! i) as [ch |]; [| done]. simpl. injection Htarget as ->.
    unfold new_MessageCreate. rewrite !pydantic_int_exact, pydantic_str_exact.
    unfold create_message, bind, get_world, insert_message, ret. simpl.
    rewrite Hnew, Hfits. rewrite decide_True by done. simpl.
    rewrite broadcast_live by done. done.
Qed.

(** X7. A text that is not JSON is answered with the invalid-JSON error
    frame on the submitting connection; a JSON value that is not an
    object (a list, a number, a string, null) has no [get]: the
    AttributeError is logged and the internal-error frame is sent.
    Nothing else happens in either case, and the loop goes on. *)
Theorem undecodable_frame_answered ws c is_group w :
  ws ∉ gone w ->
  handle_frame ws c is_group Garbled w =
    (Ok tt, with_wire (fun tr => tr ++ [Sent ws (error_frame "Неверный формат JSON")]) w)
  /\ (forall j, (forall fields, j <> JObj fields) ->
      handle_frame ws c is_group (Decodes j) w =
        (Ok tt,
         with_log (fun l => l ++ [AttributeError "object has no attribute 'get'"])
           (with_wire (fun tr => tr ++ [Sent ws (error_frame "Внутренняя ошибка сервера")])
              w))).
Proof.
  intros Hlive. split.
  - run. by rewrite send_text_live.
  - intros j Hj. run.
    destruct j as [| b | z | f | str | items | flds]; [.. | by destruct (Hj flds)];
      simpl; unfold send_text; simpl; by rewrite decide_False.
Qed.

(** X8. A send_message frame for a conversation id that is the id of no
    chat (or, on a group connection, of no group) is answered with the
    not-found error frame; nothing is stored or broadcast. *)
Theorem send_message_unknown_conversation ws c (is_group : bool) fields s t w i :
  is_send_message fields s t ->
  s <> 0 ->
  t <> EmptyString ->
  sql_int (JInt c) = Some i ->
  (if is_group then groups (db w) !! i = None else chats (db w) !! i = None) ->
  ws ∉ gone w ->
  handle_frame ws c is_group (Decodes (JObj fields)) w =
    (Ok tt, with_wire (fun tr => tr ++ [Sent ws (error_frame "Чат или группа не найдена")]) w).
Proof.
  intros (Ha & Hs & Ht) Hs0 Ht0 Hbind Hnone Hlive.
  unfold handle_frame, try_except, bind, json_loads, get_field, ret. simpl.
  rewrite Hs, Ht, (truthy_int _ Hs0), (truthy_str _ Ht0). simpl.
  unfold dispatch. rewrite Ha. unfold bind, db_get, ret. rewrite Hbind.
  destruct is_group; rewrite Hnone; simpl; by rewrite send_text_live.
Qed.

(** What [create_message] does with a new triple that the database
    does not take. *)
Lemma create_message_refused message w :
  let c := mc_chat_id message in
  let s := mc_sender_id message in
  let t := mc_text message in
  first_by_hash (fingerprint c s t) (messages (db w)) = None ->
  (fits_columns c s t (db w) = false ->
   create_message message w = (Raise DBAPIError, w)) /\
  (fits_columns c s t (db w) = true ->
   c ∉ dom (chats (db w)) \/ s ∉ users (db w) ->
   create_message message w = (Raise IntegrityError, with_db skip_id w)).
Proof.
  intros c s t Hnew. subst c s t.
  unfold create_message, bind, get_world, insert_message. simpl. rewrite Hnew.
  split.
  - by intros ->.
  - intros -> Hfk. by rewrite decide_False by tauto.
Qed.

(** X9. A send_message frame whose triple is new but whose row the
    database does not take stores nothing and broadcasts nothing, and the
    submitting connection is sent the internal-error frame. Where a value
    does not fit its column (an id outside 32 bits, a text holding
    U+0000, an exhausted sequence) the statement is not run: DBAPIError
    is logged and the database is as before. Where the values fit but a
    foreign key fails (the sender is no user, or the chat a group points
    to does not exist) IntegrityError is logged, and the id drawn for the
    row is lost: the sequence has moved on by one. *)
Theorem send_message_refused_by_database ws c is_group fields s t w c' :
  is_send_message fields s t ->
  s <> 0 ->
  t <> EmptyString ->
  persistence_target (db w) c is_group = Some c' ->
  first_by_hash (fingerprint c' s t) (messages (db w)) = None ->
  ws ∉ gone w ->
  (fits_columns c' s t (db w) = false ->
   handle_frame ws c is_group (Decodes (JObj fields)) w =
     (Ok tt,
      with_log (fun l => l ++ [DBAPIError])
        (with_wire (fun tr => tr ++ [Sent ws (error_frame "Внутренняя ошибка сервера")]) w)))
  /\
  (fits_columns c' s t (db w) = true ->
   c' ∉ dom (chats (db w)) \/ s ∉ users (db w) ->
   handle_frame ws c is_group (Decodes (JObj fields)) w =
     (Ok tt,
      with_log (fun l => l ++ [IntegrityError])
        (with_wire (fun tr => tr ++ [Sent ws (error_frame "Внутренняя ошибка сервера")])
           (with_db skip_id w)))).
Proof.
  intros (Ha & Hs & Ht) Hs0 Ht0 Htarget Hnew Hlive.
  assert (Hframe : forall e w',
            create_message (mk_MessageCreate c' s t false) w = (Raise e, w') ->
            e <> HTTPException -> gone w' = gone w ->
            handle_frame ws c is_group (Decodes (JObj fields)) w =
              (Ok tt,
               with_log (fun l => l ++ [e])
                 (with_wire
                    (fun tr => tr ++ [Sent ws (error_frame "Внутренняя ошибка сервера")])
                    w'))).
  { intros e w' Hcreate He Hgone.
    unfold persistence_target in Htarget.
    unfold handle_frame, try_except, bind, json_loads, get_field, ret. simpl.
    rewrite Hs, Ht, (truthy_int _ Hs0), (truthy_str _ Ht0). simpl.
    unfold dispatch. rewrite Ha. unfold bind, db_get, ret.
    assert (Hexc : except_inner ws e w' =
                   (Ok tt,
                    with_log (fun l => l ++ [e])
                      (with_wire
                         (fun tr => tr ++ [Sent ws (error_frame "Внутренняя ошибка сервера")])
                         w'))).
    { destruct e; try done; simpl;
        unfold logger_error, modify, bind, send_text; simpl;
        by rewrite decide_False by (by rewrite Hgone). }
    destruct is_group; destruct (sql_int (JInt c)) as [i |]; try done; simpl.
    - destruct (groups (db w) !! i) as [g |]; [| done]. simpl. rewrite Htarget.
      unfold new_MessageCreate. rewrite !pydantic_int_exact, pydantic_str_exact.
      simpl. rewrite Hcreate. simpl. by rewrite Hexc.
    - destruct (chats (db w) !! i) as [ch |]; [| done]. simpl. injection Htarget as ->.
      unfold new_MessageCreate. rewrite !pydantic_int_exact, pydantic_str_exact.
      simpl. rewrite Hcreate. simpl. by rewrite Hexc. }
  destruct (create_message_refused (mk_MessageCreate c' s t false) w Hnew)
    as [Hbind Hkey].
  split.
  - intros Hfits. by apply Hframe; [apply Hbind | |].
  - intros Hfits Hfk. by apply Hframe; [apply Hkey | |].
Qed.

(** X10. On a group connection, a send_message frame for a group that
    has no chat (its [chat_id] is NULL) fails the validation of
    [MessageCreate]: the ValidationError is logged, the submitting
    connection is sent the internal-error frame, nothing is stored. *)
Theorem send_message_group_without_chat ws c fields s t w i g :
  is_send_message fields s t ->
  s <> 0 ->
  t <> EmptyString ->
  sql_int (JInt c) = Some i ->
  groups (db w) !! i = Some g ->
  Group.chat_id g = None ->
  ws ∉ gone w ->
  handle_frame ws c true (Decodes (JObj fields)) w =
    (Ok tt,
     with_log (fun l => l ++ [ValidationError])
       (with_wire (fun tr => tr ++ [Sent ws (error_frame "Внутренняя ошибка сервера")]) w)).
Proof.
  intros (Ha & Hs & Ht) Hs0 Ht0 Hbind Hg Hnone Hlive.
  unfold handle_frame, try_except, bind, json_loads, get_field, ret. simpl.
  rewrite Hs, Ht, (truthy_int _ Hs0), (truthy_str _ Ht0). simpl.
  unfold dispatch. rewrite Ha. unfold bind, db_get, ret. rewrite Hbind, Hg. simpl.
  rewrite Hnone. unfold new_MessageCreate. rewrite pydantic_int_null. simpl.
  unfold logger_error, modify, bind, send_text. simpl. by rewrite decide_False.
Qed.

(** X11. A mark_as_read frame that gets past the guard but whose
    message_id is absent or not truthy (null, 0, an empty string) is
    answered with the missing-id error frame; nothing is looked up,
    marked or broadcast. *)
Theorem mark_as_read_without_id ws c is_group fields w :
  eq_str (dict_get "action" fields) "mark_as_read" = true ->
  truthy (dict_get "sender_id" fields) = true ->
  truthy (dict_get "text" fields) = true ->
  truthy (dict_get "message_id" fields) = false ->
  ws ∉ gone w ->
  handle_frame ws c is_group (Decodes (JObj fields)) w =
    (Ok tt, with_wire (fun tr => tr ++ [Sent ws (error_frame "Не указан ID сообщения")]) w).
Proof.
  intros Ha Hs Ht Hm Hlive. apply eq_str_true in Ha.
  run. rewrite Hs, Ht, Ha. simpl. rewrite Hm. simpl. by rewrite send_text_live.
Qed.

(* ===================================================================== *)
(** * A whole session *)
(* ===================================================================== *)

Lemma receive_loop_live ws c is_group inbound w :
  ws ∉ gone w ->
  receive_loop ws c is_group inbound w =
    (Raise WebSocketDisconnect,
     fold_left (fun w0 data => (handle_frame ws c is_group data w0).2) inbound w).
Proof.
  revert w. induction inbound as [| data rest IH]; intros w Hlive; simpl; [done |].
  unfold bind. pose proof (handle_frame_live ws c is_group data w Hlive) as Hok.
  pose proof (surroundings_handle_frame ws c is_group data w) as (_ & Hgone & _).
  destruct (handle_frame ws c is_group data w) as [[[] | e] w1]; simpl in *; [| done].
  apply IH. by rewrite Hgone.
Qed.

Lemma fold_frames_surroundings ws c is_group inbound w :
  same_surroundings w
    (fold_left (fun w0 data => (handle_frame ws c is_group data w0).2) inbound w).
Proof.
  revert w. induction inbound as [| data rest IH]; intros w; simpl; [reflexivity |].
  etrans; [apply (surroundings_handle_frame ws c is_group data w) | apply IH].
Qed.

(** X12. While its peer is there, a connection has its frames handled one
    after the other in the order they arrive, none skipped, each in the
    world the one before left; the loop ends only when [receive_text]
    raises. *)
Theorem frames_handled_in_order ws c is_group inbound w :
  ws ∉ gone w ->
  receive_loop ws c is_group inbound w =
    (Raise WebSocketDisconnect,
     fold_left (fun w0 data => (handle_frame ws c is_group data w0).2) inbound w).
Proof. apply receive_loop_live. Qed.

Lemma list_remove_last ws l : ws ∉ l -> list_remove ws (l ++ [ws]) = Some l.
Proof.
  induction l as [| y l IH]; intros H; simpl.
  - by rewrite decide_True.
  - apply not_elem_of_cons in H as [Hne H].
    rewrite decide_False by congruence. by rewrite IH.
Qed.

Lemma unregister_restores ws c (ac : gmap Z (list conn)) :
  no_empty_entry ac ->
  (if decide (default [] (ac !! c) = []) then delete c (<[c := default [] (ac !! c) ++ [ws]]> ac)
   else <[c := default [] (ac !! c)]> (<[c := default [] (ac !! c) ++ [ws]]> ac)) = ac.
Proof.
  intros Hinv. destruct (ac !! c) as [l |] eqn:E; simpl.
  - rewrite decide_False by (by apply (Hinv c)).
    rewrite insert_insert_eq. by apply insert_id.
  - by apply delete_insert_id.
Qed.

Lemma disconnect_after_connect ws c w :
  ws ∉ gone w ->
  answered ws (wire w) = false ->
  ws ∉ members w c ->
  no_empty_entry (active_connections w) ->
  exists w1, connect ws c w = (Ok tt, w1) /\
             (disconnect ws c w1).1 = Ok tt /\
             active_connections (disconnect ws c w1).2 = active_connections w.
Proof.
  intros Hlive Hopen Hnew Hinv. rewrite connect_fresh by done.
  eexists. split; [reflexivity |].
  erewrite disconnect_member;
    [| simpl; apply lookup_insert_eq | by apply list_remove_last].
  simpl. split; [done |]. by apply unregister_restores.
Qed.

(** X13. Registering a connection and then unregistering it gives the
    registry back as it was: the connection is appended and removed
    again, and an entry created for it alone is deleted. (The peer is
    there, the connection was no member before, and no entry is empty;
    this on a connection whose handshake is open: on one answered before,
    registering raises RuntimeError and changes nothing.) *)
Theorem connect_then_disconnect ws c w :
  ws ∉ gone w ->
  ws ∉ members w c ->
  no_empty_entry (active_connections w) ->
  (answered ws (wire w) = false ->
   exists w1, connect ws c w = (Ok tt, w1) /\
              (disconnect ws c w1).1 = Ok tt /\
              active_connections (disconnect ws c w1).2 = active_connections w) /\
  (answered ws (wire w) = true -> connect ws c w = (Raise RuntimeError, w)).
Proof.
  intros Hlive Hnew Hinv. split.
  - intros Hopen. by apply disconnect_after_connect.
  - intros Hdone. by rewrite connect_eq, Hdone.
Qed.

(** X14. A session always ends unregistered. On a connection whose peer
    is there and whose handshake is open, [websocket_endpoint] registers
    the connection, handles every frame, and when the peer leaves
    unregisters it and returns normally: the registry is then what it
    was before the session. If [accept] fails, because the handshake
    was answered before or because the peer is gone, the session raises
    at once and nothing was registered. *)
Theorem session_ends_unregistered ws c is_group inbound w :
  (answered ws (wire w) = true ->
   websocket_endpoint ws c is_group inbound w = (Raise RuntimeError, w)) /\
  (answered ws (wire w) = false ->
   ws ∈ gone w ->
   websocket_endpoint ws c is_group inbound w = (Raise WebSocketDisconnect, w)) /\
  (answered ws (wire w) = false ->
   ws ∉ gone w ->
   ws ∉ members w c ->
   no_empty_entry (active_connections w) ->
   (websocket_endpoint ws c is_group inbound w).1 = Ok tt /\
   active_connections (websocket_endpoint ws c is_group inbound w).2
     = active_connections w).
Proof.
  split; [| split].
  - intros Hdone. unfold websocket_endpoint. unfold bind at 1.
    by rewrite connect_eq, Hdone.
  - intros Hopen Hgone. unfold websocket_endpoint. unfold bind at 1.
    by rewrite connect_eq, Hopen, decide_True.
  - intros Hopen Hlive Hnew Hinv.
    set (w1 := with_connections (fun ac => <[c := members w c ++ [ws]]> ac)
                 (with_wire (fun t => t ++ [Accepted ws]) w)).
    set (w2 := fold_left (fun w0 data => (handle_frame ws c is_group data w0).2)
                 inbound w1).
    pose proof (fold_frames_surroundings ws c is_group inbound w1) as (Hac & _ & _).
    fold w2 in Hac.
    assert (Hl : active_connections w2 !! c = Some (members w c ++ [ws])).
    { rewrite Hac. subst w1. simpl. apply lookup_insert_eq. }
    assert (E : websocket_endpoint ws c is_group inbound w =
                logger_error WebSocketDisconnect (disconnect ws c w2).2).
    { unfold websocket_endpoint. unfold bind at 1.
      rewrite connect_fresh by done. fold w1. unfold try_except.
      rewrite receive_loop_live by done. fold w2. unfold bind.
      by rewrite (disconnect_member _ _ _ _ _ Hl (list_remove_last _ _ Hnew)). }
    rewrite E, (disconnect_member _ _ _ _ _ Hl (list_remove_last _ _ Hnew)). simpl.
    split; [done |]. rewrite Hac. subst w1. simpl. by apply unregister_restores.
Qed.

(* ===================================================================== *)
(** * More on the registry *)
(* ===================================================================== *)

Lemma list_remove_perm ws l l' : list_remove ws l = Some l' -> l ≡ₚ ws :: l'.
Proof.
  revert l'. induction l as [| y l IH]; intros l' H; simpl in H; [done |].
  destruct (decide (y = ws)) as [-> |]; [by injection H as -> |].
  destruct (list_remove ws l) as [r |]; [| done]. injection H as <-.
  rewrite (IH r eq_refl). apply Permutation_swap.
Qed.

Lemma list_remove_Some ws l : ws ∈ l -> is_Some (list_remove ws l).
Proof.
  intros H. destruct (list_remove ws l) eqn:E; [done |].
  induction l as [| y l IH]; simpl in *; [by apply elem_of_nil in H |].
  destruct (decide (y = ws)); [done |].
  apply elem_of_cons in H as [-> | H]; [done |].
  destruct (list_remove ws l); [done | by apply IH].
Qed.

(** X15. Unregistering a member removes one entry of it from the list of
    its conversation and nothing else: the remaining entries are the
    former ones less one occurrence of the connection, the entry is
    deleted when none remains, and every other conversation keeps its
    list. *)
Theorem disconnect_removes_one_entry ws c w l :
  active_connections w !! c = Some l ->
  ws ∈ l ->
  exists l',
    (disconnect ws c w).1 = Ok tt /\
    l ≡ₚ ws :: l' /\
    members (disconnect ws c w).2 c = l' /\
    (l' = [] -> active_connections (disconnect ws c w).2 !! c = None) /\
    (forall c', c' <> c ->
       active_connections (disconnect ws c w).2 !! c' = active_connections w !! c').
Proof.
  intros E Hin. destruct (list_remove_Some _ _ Hin) as [l' R]. exists l'.
  rewrite (disconnect_member _ _ _ _ _ E R). simpl.
  split; [done |]. split; [by apply list_remove_perm |].
  unfold members. simpl. destruct (decide (l' = [])) as [-> | Hne].
  - rewrite lookup_delete_eq. split; [done |]. split; [done |].
    intros c' Hc'. by rewrite lookup_delete_ne.
  - rewrite lookup_insert_eq. split; [done |]. split; [done |].
    intros c' Hc'. by rewrite lookup_insert_ne.
Qed.

(* --------------------------------------------------------------------- *)
(** ** No connection is registered twice *)
(* --------------------------------------------------------------------- *)

Lemma answered_app ws tr tr' :
  answered ws (tr ++ tr') = answered ws tr || answered ws tr'.
Proof. apply existsb_app. Qed.

Lemma answered_accepted ws tr : answered ws (tr ++ [Accepted ws]) = true.
Proof. rewrite answered_app. simpl. rewrite Nat.eqb_refl. apply orb_true_r. Qed.

(** What is on the wire stays there: the invariant survives whatever
    leaves the registry alone and only sends. *)
Lemma registered_once_grows w w' :
  active_connections w' = active_connections w ->
  (exists events, wire w' = wire w ++ events) ->
  registered_once w -> registered_once w'.
Proof.
  intros Hac (events & Hw) Hinv c l. rewrite Hac. intros E.
  destruct (Hinv c l E) as [Hnd Hans]. split; [done |].
  eapply Forall_impl; [exact Hans |]. simpl. intros x Hx.
  by rewrite Hw, answered_app, Hx.
Qed.

Lemma registered_once_connect ws c w :
  registered_once w -> registered_once (connect ws c w).2.
Proof.
  intros Hinv. rewrite connect_eq.
  destruct (answered ws (wire w)) eqn:Hopen; [done |].
  destruct (decide (ws ∈ gone w)); [done |].
  intros c' l. simpl. destruct (decide (c = c')) as [<- | Hne].
  - rewrite lookup_insert_eq. intros [= <-]. unfold members.
    destruct (active_connections w !! c) as [l |] eqn:E; simpl.
    + destruct (Hinv c l E) as [Hnd Hans]. split.
      * apply NoDup_app. split; [done |]. split; [| apply NoDup_singleton].
        intros x Hx Hin. apply list_elem_of_singleton in Hin as ->.
        rewrite Forall_forall in Hans. specialize (Hans ws Hx). congruence.
      * apply Forall_app. split.
        -- eapply Forall_impl; [exact Hans |]. simpl. intros x Hx.
           by rewrite answered_app, Hx.
        -- constructor; [apply answered_accepted | constructor].
    + split; [apply NoDup_singleton |].
      constructor; [apply answered_accepted | constructor].
  - rewrite lookup_insert_ne by done. intros E.
    destruct (Hinv c' l E) as [Hnd Hans]. split; [done |].
    eapply Forall_impl; [exact Hans |]. simpl. intros x Hx.
    by rewrite answered_app, Hx.
Qed.

Lemma registered_once_disconnect ws c w :
  registered_once w -> registered_once (disconnect ws c w).2.
Proof.
  intros Hinv. destruct (active_connections w !! c) as [l |] eqn:E.
  2: { by rewrite disconnect_no_entry. }
  destruct (list_remove ws l) as [l' |] eqn:R.
  2: { unfold disconnect, bind, get_world. by rewrite E, R. }
  rewrite (disconnect_member _ _ _ _ _ E R). simpl.
  destruct (Hinv c l E) as [Hnd Hans].
  pose proof (list_remove_perm _ _ _ R) as Hperm.
  rewrite Hperm in Hnd. rewrite Hperm in Hans.
  apply NoDup_cons in Hnd as [_ Hnd]. apply Forall_cons in Hans as [_ Hans].
  intros c' l0. simpl. destruct (decide (l' = [])).
  - destruct (decide (c = c')) as [<- |].
    + by rewrite lookup_delete_eq.
    + rewrite lookup_delete_ne by done. apply Hinv.
  - destruct (decide (c = c')) as [<- |].
    + rewrite lookup_insert_eq. by intros [= <-].
    + rewrite lookup_insert_ne by done. apply Hinv.
Qed.

Lemma registered_once_step w w' :
  core_step w w' -> registered_once w -> registered_once w'.
Proof.
  intros [ws c is_group data w0 | w0 w1 [ws c w2 | ws c w2] | w0 w1 Hmoves].
  - destruct (wire_kept_handle_frame ws c is_group data w0) as (Hac & events & Hw & _).
    apply registered_once_grows; [done | by exists events].
  - apply registered_once_connect.
  - apply registered_once_disconnect.
  - destruct Hmoves as [Hac Hw _ _ _ _].
    apply registered_once_grows; [done |]. exists []. by rewrite app_nil_r.
Qed.

Lemma registered_once_reachable w0 w :
  active_connections w0 = ∅ -> rtc core_step w0 w -> registered_once w.
Proof.
  intros Hinit Hsteps.
  assert (Hinv : registered_once w0).
  { intros c l. by rewrite Hinit, lookup_empty. }
  clear Hinit. induction Hsteps as [w | w1 w2 w3 Hstep _ IH]; [exact Hinv |].
  apply IH. by eapply registered_once_step.
Qed.

(** A registered connection is not accepted again. *)
Lemma connect_registered ws c w l :
  registered_once w ->
  active_connections w !! c = Some l ->
  ws ∈ l ->
  connect ws c w = (Raise RuntimeError, w).
Proof.
  intros Hinv E Hin. destruct (Hinv c l E) as [_ Hans].
  rewrite Forall_forall in Hans. specialize (Hans ws Hin).
  by rewrite connect_eq, Hans.
Qed.

Lemma connect_twice ws c w :
  (connect ws c (connect ws c w).2).2 = (connect ws c w).2.
Proof.
  destruct (connect ws c w) as [[[] | e] w1] eqn:E1.
  - rewrite connect_eq in E1. destruct (answered ws (wire w)); [done |].
    destruct (decide (ws ∈ gone w)); [done |]. injection E1 as <-. simpl.
    rewrite connect_eq. simpl. by rewrite answered_accepted.
  - pose proof (connect_raise ws c w e) as H. rewrite E1 in H. simpl in *.
    specialize (H eq_refl). subst w1. by rewrite E1.
Qed.

(** C7. In every state the core reaches from the empty registry (by
    register and unregister operations, frames handled, and moves of
    the world around), no list of the registry holds a connection twice,
    and registering a connection that is already registered for the
    conversation leaves the registry, and the whole world, unchanged:
    [accept], which comes first, raises RuntimeError on a handshake
    already answered, and the append is not reached. In any state,
    registering twice leaves what registering once leaves. *)
Theorem register_is_idempotent w0 w :
  active_connections w0 = ∅ ->
  rtc core_step w0 w ->
  (forall c l, active_connections w !! c = Some l -> NoDup l) /\
  (forall ws c l,
     active_connections w !! c = Some l -> ws ∈ l ->
     connect ws c w = (Raise RuntimeError, w)) /\
  (forall ws c, (connect ws c (connect ws c w).2).2 = (connect ws c w).2).
Proof.
  intros Hinit Hsteps.
  pose proof (registered_once_reachable w0 w Hinit Hsteps) as Hinv.
  split; [| split].
  - intros c l E. by destruct (Hinv c l E).
  - intros ws c l. by apply connect_registered.
  - intros ws c. apply connect_twice.
Qed.

(* ===================================================================== *)
(** * More on crud.py *)
(* ===================================================================== *)

Lemma first_by_id_update_read i ms :
  first_by_id i (update_read i ms) = set_read <$> first_by_id i ms.
Proof.
  unfold first_by_id, update_read. induction ms as [| m ms IH]; simpl; [done |].
  destruct (Message.id m =? i) eqn:E; simpl; by rewrite ?E.
Qed.

Lemma update_read_idem i ms : update_read i (update_read i ms) = update_read i ms.
Proof.
  unfold update_read. rewrite map_map. apply map_ext. intros m.
  destruct (Message.id m =? i) eqn:E; simpl; by rewrite E.
Qed.

(** X16. Marking a stored message read returns the row with [is_read]
    set; the row is then what a lookup by its id finds, and marking it
    again returns the same row and changes nothing further. Marking a
    32-bit id that is stored nowhere returns nothing and changes
    nothing. For an id outside 32 bits the query is not run: DBAPIError
    is raised and nothing changes. *)
Theorem mark_message_as_read_round_trip i w :
  (in_int32 i = true ->
   (forall m, first_by_id i (messages (db w)) = Some m ->
      let w' := with_db (commit_read i) w in
      mark_message_as_read i w = (Ok (Some (set_read m)), w') /\
      first_by_id i (messages (db w')) = Some (set_read m) /\
      mark_message_as_read i w' = (Ok (Some (set_read m)), w')) /\
   (first_by_id i (messages (db w)) = None ->
    mark_message_as_read i w = (Ok None, w))) /\
  (in_int32 i = false ->
   mark_message_as_read i w = (Raise DBAPIError, w)).
Proof.
  split; [intros Hi; split |].
  - intros m Hfind. cbv zeta.
    assert (Hfind' : first_by_id i (messages (db (with_db (commit_read i) w)))
                     = Some (set_read m)).
    { simpl. by rewrite first_by_id_update_read, Hfind. }
    split; [| split; [exact Hfind' |]].
    + unfold mark_message_as_read, bind, get_world, modify, ret. rewrite Hi. simpl.
      rewrite Hfind. simpl. by rewrite (first_by_id_id _ _ _ Hfind).
    + unfold mark_message_as_read, bind, get_world, modify, ret. rewrite Hi.
      cbn [fst snd]. rewrite Hfind'. cbn -[commit_read].
      f_equal. unfold with_db, commit_read. simpl.
      rewrite (first_by_id_id _ _ _ Hfind). by rewrite update_read_idem.
  - intros Hnone. unfold mark_message_as_read, bind, get_world, ret. rewrite Hi. simpl.
    by rewrite Hnone.
  - intros Hi. unfold mark_message_as_read. by rewrite Hi.
Qed.

Lemma first_by_hash_app_new h ms m :
  first_by_hash h ms = None -> Message.message_hash m = h ->
  first_by_hash h (ms ++ [m]) = Some m.
Proof.
  unfold first_by_hash. intros Hnone Hm. induction ms as [| m0 ms IH]; simpl in *.
  - by rewrite Hm, String.eqb_refl.
  - destruct (String.eqb _ h); [done | by apply IH].
Qed.

Lemma first_by_id_app_new i ms m :
  Forall (fun m0 => Message.id m0 <> i) ms -> Message.id m = i ->
  first_by_id i (ms ++ [m]) = Some m.
Proof.
  unfold first_by_id. intros Hnone Hm. induction Hnone as [| m0 ms H0 _ IH]; simpl.
  - by rewrite Hm, Z.eqb_refl.
  - destruct (Z.eqb_spec (Message.id m0) i); [done | exact IH].
Qed.

(** X17. Creating a message whose fingerprint is not stored, for an
    existing chat and an existing user, with values that fit their
    columns (32-bit ids, a text without U+0000, a sequence that is not
    exhausted), appends one row: the next id of the sequence, the
    triple, the flag as given, the fingerprint. The row
    is then what a lookup by that fingerprint finds and, the ids being in
    sequence, what a lookup by its id finds; creating the same message
    again raises and stores nothing. *)
Theorem create_message_round_trip message w :
  first_by_hash (fingerprint (mc_chat_id message) (mc_sender_id message) (mc_text message))
    (messages (db w)) = None ->
  fits_columns (mc_chat_id message) (mc_sender_id message) (mc_text message) (db w)
    = true ->
  mc_chat_id message ∈ dom (chats (db w)) ->
  mc_sender_id message ∈ users (db w) ->
  let m := Message.mk (message_seq (db w) + 1) (mc_chat_id message) (mc_sender_id message)
             (mc_text message) (utcnow w) (mc_is_read message)
             (fingerprint (mc_chat_id message) (mc_sender_id message) (mc_text message)) in
  let w' := with_db (store_row m) w in
  create_message message w = (Ok m, w') /\
  first_by_hash (Message.message_hash m) (messages (db w')) = Some m /\
  (ids_in_sequence (db w) -> first_by_id (Message.id m) (messages (db w')) = Some m) /\
  create_message message w' =
    (Raise (TypeError "HTTPException() takes no keyword arguments"), w').
Proof.
  intros Hnew Hfits Hchat Huser. cbv zeta.
  set (m := Message.mk _ _ _ _ _ _ _).
  assert (Hfound : first_by_hash (Message.message_hash m)
                     (messages (db (with_db (store_row m) w))) = Some m).
  { simpl. by apply first_by_hash_app_new. }
  split; [| split; [exact Hfound | split]].
  - unfold create_message, bind, get_world, insert_message. simpl.
    rewrite Hnew, Hfits. by rewrite decide_True.
  - intros [Hle _]. simpl. apply first_by_id_app_new; [| done].
    eapply Forall_impl; [exact Hle |]. simpl. intros; lia.
  - unfold create_message, bind, get_world, new_HTTPException, raise.
    cbn [fst snd]. simpl in Hfound. simpl. by rewrite Hfound.
Qed.

(** X18. In every state the core reaches from an empty table of
    messages, no triple (chat, sender, text) is stored twice. *)
Theorem no_triple_stored_twice w0 w c s t :
  messages (db w0) = [] ->
  rtc core_step w0 w ->
  (count_triple c s t (messages (db w)) <= 1)%nat.
Proof.
  intros Hinit Hsteps. apply count_triple_le_1. by eapply core_steps_consistent.
Qed.

(* --------------------------------------------------------------------- *)
(** ** The shape of a fingerprint *)
(* --------------------------------------------------------------------- *)

Lemma round_length st kw : length st = 8%nat -> length (SHA256.round st kw) = 8%nat.
Proof.
  intros H. do 9 (destruct st as [| ? st]; try discriminate). reflexivity.
Qed.

Lemma fold_round_length l st :
  length st = 8%nat -> length (fold_left SHA256.round l st) = 8%nat.
Proof.
  revert st. induction l as [| kw l IH]; intros st H; simpl; [done |].
  apply IH. by apply round_length.
Qed.

Lemma zip_add_length xs ys :
  length (SHA256.zip_add xs ys) = Nat.min (length xs) (length ys).
Proof.
  revert ys. induction xs as [| x xs IH]; intros [| y ys]; simpl; auto.
Qed.

Lemma blocks_length n (words h : list Z) :
  length h = 8%nat -> length (SHA256.blocks n words h) = 8%nat.
Proof.
  revert words h. induction n as [| n IH]; intros words h H; simpl; [done |].
  apply IH. unfold SHA256.compress. rewrite zip_add_length, fold_round_length, H; done.
Qed.

Lemma hex_digit_is_hex x : is_hex (SHA256.hex_digit (Z.land x 0xf)) = true.
Proof.
  assert (H : 0 <= Z.land x 0xf < 16).
  { change 0xf with (Z.ones 4). rewrite Z.land_ones by lia.
    apply Z.mod_pos_bound. lia. }
  revert H. generalize (Z.land x 0xf). intros v Hv.
  rewrite <- (Z2Nat.id v) by lia.
  assert (Hn : (Z.to_nat v < 16)%nat) by lia. revert Hn. generalize (Z.to_nat v).
  intros n Hn. do 16 (destruct n as [| n]; [reflexivity |]). lia.
Qed.

Lemma hex_word_shape n x s :
  String.length (String.append (SHA256.hex_word n x) s) = (n + String.length s)%nat /\
  (Forall (fun a => is_hex a = true) (list_ascii_of_string s) ->
   Forall (fun a => is_hex a = true)
     (list_ascii_of_string (String.append (SHA256.hex_word n x) s))).
Proof.
  induction n as [| n [IHl IHh]]; simpl; [done |]. split; [by rewrite IHl |].
  intros H. constructor; [apply hex_digit_is_hex | by apply IHh].
Qed.

(** X19. The fingerprint of any triple is a text of exactly 64 lowercase
    hexadecimal digits. *)
Theorem fingerprint_is_64_hex_digits c s t :
  String.length (fingerprint c s t) = 64%nat /\
  Forall (fun a => is_hex a = true) (list_ascii_of_string (fingerprint c s t)).
Proof.
  unfold fingerprint, SHA256.hexdigest.
  assert (Hlen : length (SHA256.digest_words (prehash c s t)) = 8%nat).
  { unfold SHA256.digest_words. by apply blocks_length. }
  revert Hlen. generalize (SHA256.digest_words (prehash c s t)). intros dw Hlen.
  assert (Hgen : forall l : list Z,
    String.length (fold_right (fun (x : Z) acc => String.append (SHA256.hex_word 8 x) acc)
                     EmptyString l) = (8 * length l)%nat /\
    Forall (fun a => is_hex a = true)
      (list_ascii_of_string
         (fold_right (fun (x : Z) acc => String.append (SHA256.hex_word 8 x) acc) EmptyString l))).
  { induction l as [| y l [IHl IHh]]; [by split; [| constructor] |].
    cbn [fold_right length].
    destruct (hex_word_shape 8 y
                (fold_right (fun (x : Z) acc => String.append (SHA256.hex_word 8 x) acc)
                   EmptyString l)) as [Hl Hh].
    split; [rewrite Hl, IHl; lia | by apply Hh]. }
  destruct (Hgen dw) as [Hl Hh]. split; [by rewrite Hl, Hlen | exact Hh].
Qed.

(* ===================================================================== *)
(** * More on the route *)
(* ===================================================================== *)

Lemma get_current_user_websocket_eq token w :
  get_current_user_websocket token w =
    (match jwt_decode token with
     | Some payload =>
         match dict_get "sub" payload with
         | JNull => Raise credentials_exception
         | email => Ok email
         end
     | None => Raise credentials_exception
     end, w).
Proof.
  unfold get_current_user_websocket, try_except.
  destruct (jwt_decode token) as [payload |]; [| done].
  by destruct (dict_get "sub" payload).
Qed.

(** X20. The route closes with the policy-violation code, a reason, and
    without accepting, in three cases: the token is missing or empty;
    the token does not decode or its payload has no [sub]; the token is
    good but both chat_id and group_id are missing or empty. Nothing else
    happens to the world. *)
Theorem route_closes_with_policy_violation ws query inbound w :
  (missing (query_get "token" query) = true ->
   websocket_route ws query inbound w =
     (Ok tt, with_wire (fun tr => tr ++ [Closed ws 1008 "Токен обязателен"]) w)) /\
  (forall token,
     query_get "token" query = Some token ->
     token <> EmptyString ->
     (get_current_user_websocket token w).1 = Raise credentials_exception ->
     websocket_route ws query inbound w =
       (Ok tt, with_wire (fun tr => tr ++ [Closed ws 1008 "Неверный токен"]) w)) /\
  (forall token email,
     query_get "token" query = Some token ->
     token <> EmptyString ->
     (get_current_user_websocket token w).1 = Ok email ->
     missing (query_get "chat_id" query) = true ->
     missing (query_get "group_id" query) = true ->
     websocket_route ws query inbound w =
       (Ok tt,
        with_wire (fun tr => tr ++ [Closed ws 1008 "chat_id или group_id обязателен"]) w)).
Proof.
  split; [| split].
  - intros H. unfold websocket_route. by rewrite H.
  - intros token Htoken Hne Hraise. unfold websocket_route. rewrite Htoken.
    assert (missing (Some token) = false) as -> by (apply missing_false; eauto).
    simpl. unfold bind at 1. unfold try_except at 1. unfold bind at 1.
    rewrite get_current_user_websocket_eq in *. simpl in Hraise. rewrite Hraise.
    reflexivity.
  - intros token email Htoken Hne Hok Hchat Hgroup. unfold websocket_route.
    rewrite Htoken.
    assert (missing (Some token) = false) as -> by (apply missing_false; eauto).
    simpl. unfold bind at 1. unfold try_except at 1. unfold bind at 1.
    rewrite get_current_user_websocket_eq in *. simpl in Hok. rewrite Hok.
    simpl. by rewrite Hchat, Hgroup.
Qed.

#[local] Instance same_state_preorder : PreOrder same_state.
Proof.
  split; [by intros w |].
  intros w1 w2 w3 [? ?] [? ?]. split; congruence.
Qed.

Lemma same_state_accept ws : respects same_state (accept ws).
Proof.
  intros w. unfold accept. destruct (answered ws (wire w)); [done |].
  by destruct (decide _).
Qed.

Lemma same_state_call ws i is_group inbound :
  respects same_state
    (call_websocket_endpoint ws i is_group ["user_email"%string] inbound).
Proof. by intros w. Qed.

(** X21. The route binds no session, whatever the parameters: on every
    path (closed, crashed in [int], or stopped by the TypeError of the
    call to [websocket_endpoint]) the registry and the database are left
    as they were. *)
Theorem route_never_registers ws query inbound w :
  active_connections (websocket_route ws query inbound w).2 = active_connections w /\
  db (websocket_route ws query inbound w).2 = db w.
Proof.
  revert w. change (respects same_state (websocket_route ws query inbound)).
  unfold websocket_route.
  destruct (missing (query_get "token" query)); [by intros w |].
  apply respects_bind; [apply _ | |].
  - apply respects_try_except; [apply _ | |].
    + intros w. unfold bind. rewrite get_current_user_websocket_eq.
      destruct (jwt_decode _) as [payload |]; [| done].
      by destruct (dict_get "sub" payload).
    + intros e. destruct e; try (by intros w).
  - intros [email |]; [| by intros w].
    destruct (missing (query_get "chat_id" query) && missing (query_get "group_id" query));
      [by intros w |].
    apply respects_bind; [apply _ | apply same_state_accept |]. intros _.
    destruct (negb (missing (query_get "chat_id" query))).
    + apply respects_bind; [apply _ | | intros; apply same_state_call].
      intros w. unfold py_int. destruct (query_get "chat_id" query) as [v |]; [| done].
      by destruct (int_of_str v).
    + destruct (negb (missing (query_get "group_id" query))); [| by intros w].
      apply respects_bind; [apply _ | | intros; apply same_state_call].
      intros w. unfold py_int. destruct (query_get "group_id" query) as [v |]; [| done].
      by destruct (int_of_str v).
Qed.

(** X22. A chat_id that [int] does not read is not answered with a
    policy-violation close: with a good token the route accepts the
    connection and then raises the ValueError of [int(chat_id)], whatever
    group_id is. (This on a connection whose handshake is open; on one
    answered before, [accept] raises RuntimeError.) *)
Theorem route_crashes_on_unreadable_chat_id ws query inbound w token email chat_id :
  query_get "token" query = Some token ->
  token <> EmptyString ->
  (get_current_user_websocket token w).1 = Ok email ->
  query_get "chat_id" query = Some chat_id ->
  chat_id <> EmptyString ->
  int_of_str chat_id = None ->
  ws ∉ gone w ->
  (answered ws (wire w) = false ->
   websocket_route ws query inbound w =
     (Raise (ValueError "invalid literal for int()"),
      with_wire (fun tr => tr ++ [Accepted ws]) w)) /\
  (answered ws (wire w) = true ->
   websocket_route ws query inbound w = (Raise RuntimeError, w)).
Proof.
  intros Htoken Hne Hok Hchat Hchat_ne Hint Hlive.
  assert (E : websocket_route ws query inbound w =
              if answered ws (wire w) then (Raise RuntimeError, w)
              else (Raise (ValueError "invalid literal for int()"),
                    with_wire (fun tr => tr ++ [Accepted ws]) w)).
  { unfold websocket_route. rewrite Htoken, Hchat.
    assert (missing (Some token) = false) as -> by (apply missing_false; eauto).
    assert (missing (Some chat_id) = false) as -> by (apply missing_false; eauto).
    simpl. unfold bind at 1. unfold try_except at 1. unfold bind at 1.
    rewrite get_current_user_websocket_eq in *. simpl in Hok. rewrite Hok. simpl.
    unfold bind at 1. unfold accept.
    destruct (answered ws (wire w)); [reflexivity |].
    rewrite decide_False by done.
    unfold bind at 1. unfold py_int. by rewrite Hint. }
  split; intros H; by rewrite H in E.
Qed.

(* ===================================================================== *)
(** * Personal chats *)
(* ===================================================================== *)

Lemma personal_chat_between_sym a b row :
  personal_chat_between a b row = personal_chat_between b a row.
Proof. unfold personal_chat_between. f_equal. apply orb_comm. Qed.

Lemma existing_personal_chat_sym a b d :
  existing_personal_chat a b d = existing_personal_chat b a d.
Proof.
  unfold existing_personal_chat. induction (map_to_list (chats d)) as [| kv l IH];
    simpl; [done |]. by rewrite IH, personal_chat_between_sym.
Qed.

Lemma create_personal_chat_refused new_id a b w :
  existing_personal_chat a b (db w) = true ->
  create_personal_chat new_id a b w =
    (Raise (TypeError "HTTPException() takes no keyword arguments"), w).
Proof.
  intros H. unfold create_personal_chat, bind, get_world. simpl. by rewrite H.
Qed.

(** X23. A personal chat between two users is looked for in both orders:
    if one exists between [b] and [a], creating one between [a] and [b]
    stores nothing and raises (the TypeError that the [raise] of the
    refusal ends in). *)
Theorem create_personal_chat_refuses_either_order new_id a b w :
  existing_personal_chat b a (db w) = true ->
  create_personal_chat new_id a b w =
    (Raise (TypeError "HTTPException() takes no keyword arguments"), w)
  /\ create_personal_chat new_id b a w =
    (Raise (TypeError "HTTPException() takes no keyword arguments"), w).
Proof.
  intros H. split; apply create_personal_chat_refused; [| done].
  by rewrite existing_personal_chat_sym.
Qed.

(** X24. Creating a personal chat between two users who have none, with
    a free id, stores exactly one new row (type personal, the two users,
    no name) under that id and leaves every other chat as it was; from
    then on creating one between the same two users, in either order and
    with any id, is refused. *)
Theorem create_personal_chat_once new_id a b w :
  existing_personal_chat a b (db w) = false ->
  new_id ∉ dom (chats (db w)) ->
  a ∈ users (db w) ->
  b ∈ users (db w) ->
  let row := Chat.mk None (Some "personal"%string) (Some a) (Some b) in
  exists w',
    create_personal_chat new_id a b w = (Ok (new_id, row), w') /\
    chats (db w') = <[new_id := row]> (chats (db w)) /\
    (forall id', create_personal_chat id' a b w' =
                   (Raise (TypeError "HTTPException() takes no keyword arguments"), w')) /\
    (forall id', create_personal_chat id' b a w' =
                   (Raise (TypeError "HTTPException() takes no keyword arguments"), w')).
Proof.
  intros Hnone Hfree Ha Hb. cbv zeta. eexists. split.
  { unfold create_personal_chat, bind, get_world, insert_chat. simpl. rewrite Hnone.
    by rewrite !bool_decide_eq_true_2. }
  simpl. split; [done |].
  assert (Hnow : forall w' : world,
            chats (db w') = <[new_id := Chat.mk None (Some "personal"%string) (Some a) (Some b)]>
                              (chats (db w)) ->
            existing_personal_chat a b (db w') = true).
  { intros w' E. unfold existing_personal_chat. apply existsb_exists.
    exists (new_id, Chat.mk None (Some "personal"%string) (Some a) (Some b)). split.
    - apply list_elem_of_In, elem_of_map_to_list. rewrite E. apply lookup_insert_eq.
    - unfold personal_chat_between. simpl. by rewrite !Z.eqb_refl. }
  split; intros id'; apply create_personal_chat_refused.
  - by apply Hnow.
  - rewrite existing_personal_chat_sym. by apply Hnow.
Qed.

End Frames.

(* ===================================================================== *)
(** * The theorems on the sample data *)
(* ===================================================================== *)

(** A session on the sample data: connection 13 joins chat 42, sends
    "hi", then a text that is not JSON, then a mark_as_read without
    sender_id and text, and leaves. *)
Example session_of_three_frames :
  let r := websocket_endpoint (L := strict_libraries) 13%nat 42 false
             [send_message_frame 1 "hi"; Garbled; mark_as_read_frame 1] sample_world in
  r.1 = Ok tt /\
  active_connections r.2 = active_connections sample_world /\
  messages (db r.2) = [sample_message] /\
  wire r.2 =
    wire sample_world
    ++ Accepted 13%nat
    :: deliveries [10%nat; 11%nat; 13%nat] (message_frame sample_message "new_message")
    ++ [Sent 13%nat (error_frame "Неверный формат JSON");
        Sent 13%nat (error_frame "Неверный формат сообщения")] /\
  log r.2 = [WebSocketDisconnect].
Proof. vm_compute. repeat split; reflexivity. Qed.

(** A send_message frame with sender_id 0, and one with an empty text. *)
Lemma guard_requires_sender_and_text_witness :
  handle_frame (L := strict_libraries) 10%nat 42 false (send_message_frame 0 "hi")
    sample_world =
    (Ok tt,
     with_wire (fun t => t ++ [Sent 10%nat (error_frame "Неверный формат сообщения")])
       sample_world) /\
  handle_frame (L := strict_libraries) 10%nat 42 false (send_message_frame 1 "")
    sample_world =
    (Ok tt,
     with_wire (fun t => t ++ [Sent 10%nat (error_frame "Неверный формат сообщения")])
       sample_world).
Proof.
  split.
  - apply (guard_requires_sender_and_text (L := strict_libraries) 10%nat 42 false).
    + left. reflexivity.
    + vm_compute. set_solver.
  - apply (guard_requires_sender_and_text (L := strict_libraries) 10%nat 42 false).
    + right. reflexivity.
    + vm_compute. set_solver.
Defined.

Lemma unknown_action_is_dropped_witness :
  handle_frame (L := strict_libraries) 10%nat 42 false
    (Decodes (JObj [("action"%string, JStr "frobnicate");
                    ("sender_id"%string, JInt 1);
                    ("text"%string, JStr "hi")]))
    sample_world = (Ok tt, sample_world).
Proof.
  by apply (unknown_action_is_dropped (L := strict_libraries) 10%nat 42 false).
Defined.

(** C3 as stated fails: message 1 exists, and the frame
    [{"action": "mark_as_read", "message_id": 1}] is answered with the
    malformed-message error frame; the message stays unread and nothing
    is broadcast. *)
Lemma mark_as_read_needs_sender_and_text :
  first_by_id 1 (messages (db sample_world_message)) = Some sample_message /\
  handle_frame (L := strict_libraries) 10%nat 42 false (mark_as_read_frame 1)
    sample_world_message =
    (Ok tt,
     with_wire (fun t => t ++ [Sent 10%nat (error_frame "Неверный формат сообщения")])
       sample_world_message).
Proof. split; vm_compute; reflexivity. Qed.

(** Connection 11 marks message 1 read, then asks for message 5. *)
Lemma mark_as_read_broadcasts_witness :
  let fields i := [("action"%string, JStr "mark_as_read"); ("message_id"%string, JInt i);
                   ("sender_id"%string, JInt 2); ("text"%string, JStr "seen")] in
  handle_frame (L := strict_libraries) 11%nat 42 false (Decodes (JObj (fields 1)))
    sample_world_message =
    (Ok tt,
     with_wire (fun t => t ++ deliveries [10%nat; 11%nat]
                                (message_frame (set_read sample_message) "message_read"))
       (with_db (commit_read 1) sample_world_message)) /\
  handle_frame (L := strict_libraries) 11%nat 42 false (Decodes (JObj (fields 5)))
    sample_world_message =
    (Ok tt,
     with_wire (fun t => t ++ [Sent 11%nat (error_frame "Сообщение не найдено")])
       sample_world_message).
Proof.
  cbv zeta. split.
  - apply (mark_as_read_broadcasts (L := strict_libraries) 11%nat 42 false _
             sample_world_message 1); try reflexivity.
    vm_compute. repeat constructor; set_solver.
  - apply (mark_as_read_broadcasts (L := strict_libraries) 11%nat 42 false _
             sample_world_message 5); try reflexivity.
    vm_compute. set_solver.
Defined.

(** Connection 10 sends "hi" as user 1 in chat 42; connection 13 joins;
    connection 11 sends the same. *)
Lemma duplicate_send_rejected_witness :
  let w1 := (handle_frame (L := strict_libraries) 10%nat 42 false
               (send_message_frame 1 "hi") sample_world).2 in
  let w2 := (connect 13%nat 42 w1).2 in
  (Message.sender_id sample_message = 1 /\ Message.text sample_message = "hi"%string) /\
  count_triple 42 1 "hi" (messages (db w2)) = 1%nat /\
  handle_frame (L := strict_libraries) 11%nat 42 false (send_message_frame 1 "hi") w2 =
    (Ok tt,
     with_log (fun l => l ++ [TypeError "HTTPException() takes no keyword arguments"])
       (with_wire (fun tr => tr ++ [Sent 11%nat (error_frame "Внутренняя ошибка сервера")])
          w2)).
Proof.
  cbv zeta.
  apply (duplicate_send_rejected (L := strict_libraries) sample_world _ 10%nat 11%nat 42
           false (send_message_fields 1 "hi") (send_message_fields 1 "hi") 1 "hi"
           sample_message).
  - split; [constructor | apply NoDup_nil_2].
  - by repeat split.
  - by repeat split.
  - vm_compute; reflexivity.
  - apply rtc_once, step_registry, step_register.
  - vm_compute. set_solver.
Defined.

(** A valid token with chat_id=42 and group_id=7, on connection 13. *)
Lemma route_with_chat_and_group_witness :
  websocket_route (L := strict_libraries) 13%nat
    [("token", "good"); ("chat_id", "42"); ("group_id", "7")]%string [] sample_world =
  (Raise (TypeError
            "websocket_endpoint() got an unexpected keyword argument 'user_email'"),
   with_wire (fun tr => tr ++ [Accepted 13%nat]) sample_world).
Proof.
  assert (Hlive : 13%nat ∉ gone sample_world) by (simpl; set_solver).
  exact (proj2 (proj1 (route_with_chat_and_group (L := strict_libraries) 13%nat
                         [("token", "good"); ("chat_id", "42"); ("group_id", "7")]%string []
                         sample_world "good" [("sub"%string, JStr "a@b.c")] "42" 42
                         eq_refl ltac:(discriminate) eq_refl ltac:(discriminate)
                         eq_refl ltac:(discriminate) eq_refl Hlive)
                  eq_refl)).
Defined.

(** Connection 10 registers for conversation 42 and registers again:
    the second registration raises and the list of 42 holds it once. *)
Lemma register_is_idempotent_witness :
  let w := (connect 10%nat 42 empty_world).2 in
  active_connections w !! 42 = Some [10%nat] /\
  NoDup [10%nat] /\
  connect 10%nat 42 w = (Raise RuntimeError, w) /\
  (connect 10%nat 42 w).2 = w.
Proof.
  cbv zeta.
  assert (E : active_connections (connect 10%nat 42 empty_world).2 !! 42 = Some [10%nat])
    by (vm_compute; reflexivity).
  destruct (register_is_idempotent (L := strict_libraries) empty_world
              (connect 10%nat 42 empty_world).2 eq_refl
              (rtc_once _ _ (step_registry _ _ (step_register 10%nat 42 empty_world))))
    as (Hnd & Hraise & Htwice).
  split; [exact E |]. split; [exact (Hnd 42 [10%nat] E) |].
  split; [| exact (Htwice 10%nat 42)].
  exact (Hraise 10%nat 42 [10%nat] E (list_elem_of_here _ _)).
Defined.
(* ===================================================================== *)
(** * The further theorems on the sample data *)
(* ===================================================================== *)

Lemma sample_registry_no_empty_entry : no_empty_entry (active_connections sample_world).
Proof.
  intros c l. simpl. rewrite lookup_insert. case_decide; [by intros [= <-] |].
  rewrite lookup_singleton. case_decide; [by intros [= <-] | done].
Qed.

Lemma sample_members_42 : members sample_world 42 = [10%nat; 11%nat].
Proof. reflexivity. Qed.

Lemma sample_newcomer : 13%nat ∉ [10%nat; 11%nat].
Proof.
  intros H. repeat (apply elem_of_cons in H as [H | H]; [discriminate |]).
  by apply elem_of_nil in H.
Qed.

(** Connection 11 sends while the peer of connection 10 is gone: the
    broadcast fails at 10 and the loop of 11 goes on. *)
Lemma frame_never_raises_witness :
  (handle_frame (L := strict_libraries) 11%nat 42 false (send_message_frame 1 "hi")
     sample_world_gone).1 = Ok tt.
Proof.
  apply (frame_never_raises (L := strict_libraries) 11%nat 42 false).
  vm_compute. set_solver.
Defined.

Lemma frame_keeps_ids_distinct_witness :
  ids_in_sequence
    (db (handle_frame (L := strict_libraries) 10%nat 42 false (send_message_frame 2 "yo")
           sample_world_message).2).
Proof.
  apply (frame_keeps_ids_distinct (L := strict_libraries) 10%nat 42 false).
  split; simpl.
  - repeat constructor. simpl. lia.
  - apply NoDup_singleton.
Defined.

Lemma send_message_stores_and_broadcasts_witness :
  handle_frame (L := strict_libraries) 10%nat 42 false (send_message_frame 1 "hi")
    sample_world =
    (Ok tt,
     with_wire (fun tr => tr ++ deliveries [10%nat; 11%nat]
                                  (message_frame sample_message "new_message"))
       (with_db (store_row sample_message) sample_world)).
Proof.
  apply (send_message_stores_and_broadcasts (L := strict_libraries) 10%nat 42 false
           (send_message_fields 1 "hi") 1 "hi" sample_world 42).
  - by repeat split.
  - done.
  - done.
  - reflexivity.
  - vm_compute; reflexivity.
  - simpl. rewrite dom_singleton_L. set_solver.
  - simpl. set_solver.
  - reflexivity.
  - rewrite sample_members_42. repeat constructor; simpl; set_solver.
Defined.

Lemma undecodable_frame_answered_witness :
  handle_frame (L := strict_libraries) 10%nat 42 false Garbled sample_world =
    (Ok tt,
     with_wire (fun tr => tr ++ [Sent 10%nat (error_frame "Неверный формат JSON")])
       sample_world)
  /\ handle_frame (L := strict_libraries) 10%nat 42 false (Decodes (JArr [JInt 1]))
       sample_world =
    (Ok tt,
     with_log (fun l => l ++ [AttributeError "object has no attribute 'get'"])
       (with_wire (fun tr => tr ++ [Sent 10%nat (error_frame "Внутренняя ошибка сервера")])
          sample_world)).
Proof.
  assert (Hlive : 10%nat ∉ gone sample_world) by (simpl; set_solver).
  destruct (undecodable_frame_answered (L := strict_libraries) 10%nat 42 false
              sample_world Hlive) as [H1 H2].
  split; [exact H1 | by apply H2].
Defined.

Lemma send_message_unknown_conversation_witness :
  handle_frame (L := strict_libraries) 10%nat 99 false (send_message_frame 1 "hi")
    sample_world =
    (Ok tt,
     with_wire (fun tr => tr ++ [Sent 10%nat (error_frame "Чат или группа не найдена")])
       sample_world).
Proof.
  apply (send_message_unknown_conversation (L := strict_libraries) 10%nat 99 false
           (send_message_fields 1 "hi") 1 "hi" sample_world 99);
    try done; try (by repeat split); simpl; set_solver.
Defined.

(** User 5 does not exist: the insert is refused and the id 1 is lost.
    The sender 2147483648 fits no [Integer] column: the insert is not
    run. *)
Lemma send_message_refused_by_database_witness :
  handle_frame (L := strict_libraries) 10%nat 42 false (send_message_frame 5 "hi")
    sample_world =
    (Ok tt,
     with_log (fun l => l ++ [IntegrityError])
       (with_wire (fun tr => tr ++ [Sent 10%nat (error_frame "Внутренняя ошибка сервера")])
          (with_db skip_id sample_world)))
  /\ message_seq (db (handle_frame (L := strict_libraries) 10%nat 42 false
                        (send_message_frame 5 "hi") sample_world).2) = 1
  /\ handle_frame (L := strict_libraries) 10%nat 42 false
       (send_message_frame 2147483648 "hi") sample_world =
    (Ok tt,
     with_log (fun l => l ++ [DBAPIError])
       (with_wire (fun tr => tr ++ [Sent 10%nat (error_frame "Внутренняя ошибка сервера")])
          sample_world)).
Proof.
  assert (Hlive : 10%nat ∉ gone sample_world) by (simpl; set_solver).
  assert (Hfk : 42 ∉ dom (chats (db sample_world)) \/ 5 ∉ users (db sample_world)).
  { right. simpl. rewrite not_elem_of_union, !not_elem_of_singleton. done. }
  assert (H5 : is_send_message (send_message_fields 5 "hi") 5 "hi") by (by repeat split).
  assert (Hbig : is_send_message (send_message_fields 2147483648 "hi") 2147483648 "hi")
    by (by repeat split).
  pose proof (proj2 (send_message_refused_by_database (L := strict_libraries) 10%nat 42
                       false (send_message_fields 5 "hi") 5 "hi" sample_world 42 H5
                       ltac:(done) ltac:(done) eq_refl eq_refl Hlive) eq_refl Hfk) as E1.
  pose proof (proj1 (send_message_refused_by_database (L := strict_libraries) 10%nat 42
                       false (send_message_fields 2147483648 "hi") 2147483648 "hi"
                       sample_world 42 Hbig
                       ltac:(done) ltac:(done) eq_refl eq_refl Hlive) eq_refl) as E2.
  split; [exact E1 |]. split; [| exact E2].
  unfold send_message_frame. rewrite E1. reflexivity.
Defined.

Lemma send_message_group_without_chat_witness :
  handle_frame (L := strict_libraries) 10%nat 8 true (send_message_frame 1 "hi")
    sample_world_bare_group =
    (Ok tt,
     with_log (fun l => l ++ [ValidationError])
       (with_wire (fun tr => tr ++ [Sent 10%nat (error_frame "Внутренняя ошибка сервера")])
          sample_world_bare_group)).
Proof.
  apply (send_message_group_without_chat (L := strict_libraries) 10%nat 8
           (send_message_fields 1 "hi") 1 "hi" sample_world_bare_group 8
           (Group.mk (Some "bare"%string) (Some 1) None));
    try done; try (by repeat split); simpl; set_solver.
Defined.

Lemma mark_as_read_without_id_witness :
  handle_frame (L := strict_libraries) 10%nat 42 false
    (Decodes (JObj [("action"%string, JStr "mark_as_read");
                    ("sender_id"%string, JInt 2); ("text"%string, JStr "seen")]))
    sample_world =
    (Ok tt,
     with_wire (fun tr => tr ++ [Sent 10%nat (error_frame "Не указан ID сообщения")])
       sample_world).
Proof.
  apply (mark_as_read_without_id (L := strict_libraries) 10%nat 42 false);
    try done; simpl; set_solver.
Defined.

Lemma frames_handled_in_order_witness :
  receive_loop (L := strict_libraries) 10%nat 42 false
    [send_message_frame 1 "hi"; Garbled] sample_world =
    (Raise WebSocketDisconnect,
     (handle_frame (L := strict_libraries) 10%nat 42 false Garbled
        (handle_frame (L := strict_libraries) 10%nat 42 false (send_message_frame 1 "hi")
           sample_world).2).2).
Proof.
  apply (frames_handled_in_order (L := strict_libraries) 10%nat 42 false
           [send_message_frame 1 "hi"; Garbled] sample_world).
  simpl. set_solver.
Defined.

Lemma connect_then_disconnect_witness :
  exists w1, connect 13%nat 42 sample_world = (Ok tt, w1) /\
             (disconnect 13%nat 42 w1).1 = Ok tt /\
             active_connections (disconnect 13%nat 42 w1).2
               = active_connections sample_world.
Proof.
  assert (Hlive : 13%nat ∉ gone sample_world) by (simpl; set_solver).
  assert (Hnew : 13%nat ∉ members sample_world 42)
    by (rewrite sample_members_42; apply sample_newcomer).
  exact (proj1 (connect_then_disconnect 13%nat 42 sample_world Hlive Hnew
                  sample_registry_no_empty_entry) eq_refl).
Defined.

(** Connection 13 holds a session for chat 42 and leaves; connection 10,
    accepted before, cannot open another. *)
Lemma session_ends_unregistered_witness :
  ((websocket_endpoint (L := strict_libraries) 13%nat 42 false
      [send_message_frame 1 "hi"; Garbled] sample_world).1 = Ok tt /\
   active_connections
     (websocket_endpoint (L := strict_libraries) 13%nat 42 false
        [send_message_frame 1 "hi"; Garbled] sample_world).2
     = active_connections sample_world) /\
  websocket_endpoint (L := strict_libraries) 10%nat 7 true [] sample_world
    = (Raise RuntimeError, sample_world).
Proof.
  assert (H13 : 13%nat ∉ gone sample_world) by (simpl; set_solver).
  assert (Hnew : 13%nat ∉ members sample_world 42)
    by (rewrite sample_members_42; apply sample_newcomer).
  split.
  - exact (proj2 (proj2 (session_ends_unregistered (L := strict_libraries) 13%nat 42 false
                           [send_message_frame 1 "hi"; Garbled] sample_world))
             eq_refl H13 Hnew sample_registry_no_empty_entry).
  - exact (proj1 (session_ends_unregistered (L := strict_libraries) 10%nat 7 true
                    [] sample_world) eq_refl).
Defined.

Lemma disconnect_removes_one_entry_witness :
  exists l',
    (disconnect 10%nat 42 sample_world).1 = Ok tt /\
    [10%nat; 11%nat] ≡ₚ 10%nat :: l' /\
    members (disconnect 10%nat 42 sample_world).2 42 = l' /\
    (l' = [] -> active_connections (disconnect 10%nat 42 sample_world).2 !! 42 = None) /\
    (forall c', c' <> 42 ->
       active_connections (disconnect 10%nat 42 sample_world).2 !! c'
         = active_connections sample_world !! c').
Proof.
  apply (disconnect_removes_one_entry 10%nat 42 sample_world [10%nat; 11%nat]).
  - reflexivity.
  - apply list_elem_of_here.
Defined.

Lemma mark_message_as_read_round_trip_witness :
  mark_message_as_read 1 sample_world_message =
    (Ok (Some (set_read sample_message)), with_db (commit_read 1) sample_world_message)
  /\ mark_message_as_read 5 sample_world_message = (Ok None, sample_world_message)
  /\ mark_message_as_read 2147483648 sample_world_message
     = (Raise DBAPIError, sample_world_message).
Proof.
  split; [| split].
  - exact (proj1 (proj1 (proj1 (mark_message_as_read_round_trip 1 sample_world_message)
                           eq_refl)
                    sample_message eq_refl)).
  - exact (proj2 (proj1 (mark_message_as_read_round_trip 5 sample_world_message) eq_refl)
             eq_refl).
  - exact (proj2 (mark_message_as_read_round_trip 2147483648 sample_world_message)
             eq_refl).
Defined.

Lemma create_message_round_trip_witness :
  create_message (mk_MessageCreate 42 1 "hi" false) sample_world =
    (Ok sample_message, with_db (store_row sample_message) sample_world).
Proof.
  assert (Hchat : 42 ∈ dom (chats (db sample_world)))
    by (simpl; rewrite dom_singleton_L; set_solver).
  assert (Huser : 1 ∈ users (db sample_world)) by (simpl; set_solver).
  exact (proj1 (create_message_round_trip (mk_MessageCreate 42 1 "hi" false) sample_world
                  eq_refl eq_refl Hchat Huser)).
Defined.

Lemma no_triple_stored_twice_witness :
  (count_triple 42 1 "hi"
     (messages (db (handle_frame (L := strict_libraries) 10%nat 42 false
                      (send_message_frame 1 "hi") sample_world).2)) <= 1)%nat.
Proof.
  apply (no_triple_stored_twice (L := strict_libraries) sample_world).
  - reflexivity.
  - apply rtc_once, step_frame.
Defined.

Lemma route_closes_with_policy_violation_witness :
  websocket_route (L := strict_libraries) 13%nat [("chat_id", "42")]%string [] sample_world =
    (Ok tt, with_wire (fun tr => tr ++ [Closed 13%nat 1008 "Токен обязателен"]) sample_world)
  /\ websocket_route (L := strict_libraries) 13%nat
       [("token", "bad"); ("chat_id", "42")]%string [] sample_world =
    (Ok tt, with_wire (fun tr => tr ++ [Closed 13%nat 1008 "Неверный токен"]) sample_world)
  /\ websocket_route (L := strict_libraries) 13%nat [("token", "good")]%string []
       sample_world =
    (Ok tt,
     with_wire (fun tr => tr ++ [Closed 13%nat 1008 "chat_id или group_id обязателен"])
       sample_world).
Proof.
  split; [| split].
  - by apply (route_closes_with_policy_violation (L := strict_libraries) 13%nat
                [("chat_id", "42")]%string [] sample_world).
  - by apply (route_closes_with_policy_violation (L := strict_libraries) 13%nat
                [("token", "bad"); ("chat_id", "42")]%string [] sample_world)
         with (token := "bad"%string).
  - by apply (route_closes_with_policy_violation (L := strict_libraries) 13%nat
                [("token", "good")]%string [] sample_world)
         with (token := "good"%string) (email := JStr "a@b.c").
Defined.

Lemma route_crashes_on_unreadable_chat_id_witness :
  websocket_route (L := strict_libraries) 13%nat
    [("token", "good"); ("chat_id", "abc"); ("group_id", "7")]%string [] sample_world =
    (Raise (ValueError "invalid literal for int()"),
     with_wire (fun tr => tr ++ [Accepted 13%nat]) sample_world).
Proof.
  assert (Hlive : 13%nat ∉ gone sample_world) by (simpl; set_solver).
  exact (proj1 (route_crashes_on_unreadable_chat_id (L := strict_libraries) 13%nat
                  [("token", "good"); ("chat_id", "abc"); ("group_id", "7")]%string []
                  sample_world "good" (JStr "a@b.c") "abc"
                  eq_refl ltac:(discriminate) eq_refl eq_refl ltac:(discriminate)
                  eq_refl Hlive)
           eq_refl).
Defined.

(** Users 1 and 2 have chat 42; asking for one between 2 and 1. *)
Lemma create_personal_chat_refuses_either_order_witness :
  create_personal_chat 50 2 1 sample_world_users =
    (Raise (TypeError "HTTPException() takes no keyword arguments"), sample_world_users).
Proof.
  apply (create_personal_chat_refuses_either_order 50 2 1 sample_world_users).
  vm_compute. reflexivity.
Defined.

Lemma create_personal_chat_once_witness :
  exists w',
    create_personal_chat 50 1 3 sample_world_users =
      (Ok (50, Chat.mk None (Some "personal"%string) (Some 1) (Some 3)), w') /\
    chats (db w') =
      <[50 := Chat.mk None (Some "personal"%string) (Some 1) (Some 3)]>
        (chats (db sample_world_users)) /\
    (forall id', create_personal_chat id' 1 3 w' =
                   (Raise (TypeError "HTTPException() takes no keyword arguments"), w')) /\
    (forall id', create_personal_chat id' 3 1 w' =
                   (Raise (TypeError "HTTPException() takes no keyword arguments"), w')).
Proof.
  apply (create_personal_chat_once 50 1 3 sample_world_users).
  - vm_compute. reflexivity.
  - simpl. rewrite dom_singleton_L. set_solver.
  - simpl. set_solver.
  - simpl. set_solver.
Defined.
